(** * Contact book with birthday scheduling (task01.py)

    A shallow embedding of the address book of [task01.py] and of the part of
    Python's [datetime] module its birthday scheduler calls, followed by the
    properties of the scheduler and of the record operations.

    Conventions of the embedding.
    - Python integers are [Z]; [//] and [%] with a positive divisor are
      [Z.div] and [Z.modulo] (both round towards minus infinity).
    - Python [str] is [string]; only ASCII text is modelled, so [str.isdigit]
      and the regular expression class [\d] are the ten characters 0..9.
    - A raised exception is the [Err] alternative of [result]; a method that
      mutates its object returns the outcome together with the object's
      final state.
    - [dict] and [defaultdict] keep insertion order, which the caller of the
      scheduler prints, so both are association lists with unique keys. *)

From Stdlib Require Import ZArith List String Ascii Bool Lia Permutation.
Import ListNotations.

Local Open Scope string_scope.
Local Open Scope Z_scope.

(** ** Exceptions *)

Inductive exn : Type :=
| ValueError (msg : string)
| AttributeError (msg : string)
| KeyError (key : string)
| OverflowError (msg : string).

Inductive result (A : Type) : Type :=
| Ok (a : A)
| Err (e : exn).

Arguments Ok {A} a.
Arguments Err {A} e.

Definition bind {A B : Type} (m : result A) (f : A -> result B) : result B :=
  match m with
  | Ok a => f a
  | Err e => Err e
  end.

Notation "x <- m ;; k" := (bind m (fun x => k))
  (at level 61, m at next level, right associativity).

Definition is_ok {A : Type} (m : result A) : bool :=
  match m with Ok _ => true | Err _ => false end.

(** ** The calendar of [datetime.date]

    The proleptic Gregorian calendar as CPython's [datetime] implements it:
    a date is a (year, month, day) triple, and arithmetic goes through the
    ordinal of the day, 1 being 0001-01-01. *)

Module Date.

Record date : Type := mkdate { year : Z; month : Z; day : Z }.

Definition MINYEAR : Z := 1.
Definition MAXYEAR : Z := 9999.

Definition DAYS_IN_MONTH : list Z :=
  [-1; 31; 28; 31; 30; 31; 30; 31; 31; 30; 31; 30; 31].

Definition DAYS_BEFORE_MONTH : list Z :=
  [-1; 0; 31; 59; 90; 120; 151; 181; 212; 243; 273; 304; 334].

Definition index (l : list Z) (i : Z) : Z := nth (Z.to_nat i) l 0.

Definition is_leap (y : Z) : bool :=
  (y mod 4 =? 0) && (negb (y mod 100 =? 0) || (y mod 400 =? 0)).

Definition days_before_year (y : Z) : Z :=
  let y := y - 1 in
  y * 365 + y / 4 - y / 100 + y / 400.

Definition days_in_month (y m : Z) : Z :=
  if (m =? 2) && is_leap y then 29 else index DAYS_IN_MONTH m.

Definition days_before_month (y m : Z) : Z :=
  index DAYS_BEFORE_MONTH m + (if (2 <? m) && is_leap y then 1 else 0).

Definition ymd2ord (y m d : Z) : Z :=
  days_before_year y + days_before_month y m + d.

Definition DI400Y : Z := 146097.
Definition DI100Y : Z := 36524.
Definition DI4Y : Z := 1461.

(** The month and the day of day [n] of a year, counted from 0 (the tail
    of [_ord2ymd]: an estimate of the month that is exact or one too
    large, then the correction). *)
Definition month_day (n : Z) (leapyear : bool) : Z * Z :=
  let m := Z.shiftr (n + 50) 5 in
  let preceding :=
    index DAYS_BEFORE_MONTH m + (if (2 <? m) && leapyear then 1 else 0) in
  if n <? preceding then
    let m := m - 1 in
    let preceding :=
      preceding
      - (index DAYS_IN_MONTH m + (if (m =? 2) && leapyear then 1 else 0)) in
    (m, n - preceding + 1)
  else (m, n - preceding + 1).

Definition ord2ymd (n : Z) : date :=
  let n := n - 1 in
  let n400 := n / DI400Y in
  let n := n mod DI400Y in
  let y := n400 * 400 + 1 in
  let n100 := n / DI100Y in
  let n := n mod DI100Y in
  let n4 := n / DI4Y in
  let n := n mod DI4Y in
  let n1 := n / 365 in
  let n := n mod 365 in
  let y := y + (n100 * 100 + n4 * 4 + n1) in
  if (n1 =? 4) || (n100 =? 4) then mkdate (y - 1) 12 31
  else
    let leapyear := (n1 =? 3) && (negb (n4 =? 24) || (n100 =? 3)) in
    let (m, d) := month_day n leapyear in
    mkdate y m d.

(** The checks of the [date] constructor. *)
Definition check_date_fields (y m d : Z) : result unit :=
  if negb ((MINYEAR <=? y) && (y <=? MAXYEAR))
  then Err (ValueError "year is out of range")
  else if negb ((1 <=? m) && (m <=? 12))
  then Err (ValueError "month must be in 1..12")
  else if negb ((1 <=? d) && (d <=? days_in_month y m))
  then Err (ValueError "day is out of range for month")
  else Ok tt.

Definition new (y m d : Z) : result date :=
  _ <- check_date_fields y m d ;; Ok (mkdate y m d).

Definition valid (d : date) : bool :=
  is_ok (check_date_fields (year d) (month d) (day d)).

Definition toordinal (d : date) : Z := ymd2ord (year d) (month d) (day d).

Definition MAXORDINAL : Z := 3652059.

Definition fromordinal (n : Z) : result date :=
  if n <? 1 then Err (ValueError "ordinal must be >= 1")
  else if MAXORDINAL <? n then Err (ValueError "year is out of range")
  else Ok (ord2ymd n).

(** [d + timedelta(days=n)] *)
Definition add_days (d : date) (n : Z) : result date :=
  let o := toordinal d + n in
  if (0 <? o) && (o <=? MAXORDINAL) then fromordinal o
  else Err (OverflowError "date value out of range").

(** [(a - b).days] *)
Definition sub_days (a b : date) : Z := toordinal a - toordinal b.

(** [a < b] compares the (year, month, day) triples. *)
Definition lt (a b : date) : bool :=
  (year a <? year b)
  || ((year a =? year b)
      && ((month a <? month b)
          || ((month a =? month b) && (day a <? day b)))).

(** [d.replace(year=y)] *)
Definition replace_year (d : date) (y : Z) : result date :=
  new y (month d) (day d).

(** [d.weekday()]: 0 is Monday, 6 is Sunday. *)
Definition weekday (d : date) : Z := (toordinal d + 6) mod 7.

Definition day_name : list string :=
  ["Monday"; "Tuesday"; "Wednesday"; "Thursday"; "Friday"; "Saturday";
   "Sunday"].

(** [d.strftime("%A")] in the C locale. *)
Definition strftime_A (d : date) : string :=
  nth (Z.to_nat (weekday d)) day_name "".

End Date.

(** ** [datetime.strptime(s, "%d.%m.%Y").date()]

    [_strptime] turns the format into the regular expression
    [(3[0-1]|[1-2]\d|0[1-9]|[1-9]| [1-9])\.(1[0-2]|0[1-9]|[1-9])\.(\d\d\d\d)],
    matches it at the start of the text and rejects text left over.  The
    alternatives are tried in order; whenever a two-character alternative
    matches, the one-character alternative is followed by a digit where the
    dot is required, so taking the first alternative that matches is what
    the backtracking matcher computes. *)

Module Strptime.

Definition code (c : ascii) : Z := Z.of_nat (nat_of_ascii c).

Definition between (lo hi : Z) (c : ascii) : bool :=
  (lo <=? code c) && (code c <=? hi).

(** The character class [\d] and sub-ranges of it, by code point. *)
Definition is_digit (c : ascii) : bool := between 48 57 c.

Definition digit_val (c : ascii) : Z := code c - 48.

Definition is_dot (c : ascii) : bool := code c =? 46.

Definition is_space (c : ascii) : bool := code c =? 32.

(** Directive [%d]. *)
Definition match_d (s : list ascii) : option (Z * list ascii) :=
  match s with
  | c1 :: c2 :: rest =>
      if ((code c1 =? 51) && between 48 49 c2)
         || (between 49 50 c1 && is_digit c2)
         || ((code c1 =? 48) && between 49 57 c2)
      then Some (10 * digit_val c1 + digit_val c2, rest)
      else if between 49 57 c1 then Some (digit_val c1, c2 :: rest)
      else if is_space c1 && between 49 57 c2 then Some (digit_val c2, rest)
      else None
  | [c1] => if between 49 57 c1 then Some (digit_val c1, []) else None
  | [] => None
  end.

(** Directive [%m]. *)
Definition match_m (s : list ascii) : option (Z * list ascii) :=
  match s with
  | c1 :: c2 :: rest =>
      if ((code c1 =? 49) && between 48 50 c2)
         || ((code c1 =? 48) && between 49 57 c2)
      then Some (10 * digit_val c1 + digit_val c2, rest)
      else if between 49 57 c1 then Some (digit_val c1, c2 :: rest)
      else None
  | [c1] => if between 49 57 c1 then Some (digit_val c1, []) else None
  | [] => None
  end.

(** Directive [%Y]. *)
Definition match_Y (s : list ascii) : option (Z * list ascii) :=
  match s with
  | c1 :: c2 :: c3 :: c4 :: rest =>
      if is_digit c1 && is_digit c2 && is_digit c3 && is_digit c4
      then Some (1000 * digit_val c1 + 100 * digit_val c2
                 + 10 * digit_val c3 + digit_val c4, rest)
      else None
  | _ => None
  end.

Definition match_dot (s : list ascii) : option (list ascii) :=
  match s with
  | c :: rest => if is_dot c then Some rest else None
  | [] => None
  end.

Definition no_match : exn := ValueError "time data does not match format".

Definition strptime_dmY (s : string) : result Date.date :=
  match match_d (list_ascii_of_string s) with
  | None => Err no_match
  | Some (d, s1) =>
  match match_dot s1 with
  | None => Err no_match
  | Some s2 =>
  match match_m s2 with
  | None => Err no_match
  | Some (m, s3) =>
  match match_dot s3 with
  | None => Err no_match
  | Some s4 =>
  match match_Y s4 with
  | None => Err no_match
  | Some (y, []) => Date.new y m d
  | Some (_, _ :: _) => Err (ValueError "unconverted data remains")
  end end end end end.

(** The text DD.MM.YYYY of a date, every field zero-padded. *)
Definition digit_char (k : Z) : ascii := ascii_of_nat (Z.to_nat (k + 48)).

Definition format_dmY (d : Date.date) : string :=
  let dd := Date.day d in
  let mm := Date.month d in
  let yy := Date.year d in
  string_of_list_ascii
    [digit_char (dd / 10); digit_char (dd mod 10); "."%char;
     digit_char (mm / 10); digit_char (mm mod 10); "."%char;
     digit_char (yy / 1000); digit_char (yy / 100 mod 10);
     digit_char (yy / 10 mod 10); digit_char (yy mod 10)].

End Strptime.

(** ** Fields *)

Module Phone.

(** [str.isdigit] on ASCII text: every character is one of 0 to 9 and
    there is at least one.  Python also counts digits outside ASCII, which
    the texts of this file do not contain. *)
Definition isdigit (s : string) : bool :=
  match list_ascii_of_string s with
  | [] => false
  | l => forallb Strptime.is_digit l
  end.

(** [len(self.value) == 10 and self.value.isdigit()] *)
Definition validate (value : string) : bool :=
  (Z.of_nat (String.length value) =? 10) && isdigit value.

(** [Phone(value)]: the constructor keeps the value or raises. *)
Definition new (value : string) : result string :=
  if negb (validate value)
  then Err (ValueError "Invalid phone number format")
  else Ok value.

End Phone.

Module Birthday.

Definition validate (value : string) : bool :=
  is_ok (Strptime.strptime_dmY value).

Definition new (value : string) : result string :=
  if negb (validate value)
  then Err (ValueError "Invalid date format")
  else Ok value.

End Birthday.

(** ** Records

    A record is mutated in place by its methods: each method is a function
    from the state before the call to the outcome and the state after it.
    When a method raises, the state is the one reached at the raise. *)

Module Record_.

Record t : Type := mk {
  name : string;
  phones : list string;
  birthday : option string
}.

(** [Record(name)] *)
Definition init (nm : string) : t := mk nm [] None.

Definition set_phones (self : t) (ps : list string) : t :=
  mk (name self) ps (birthday self).

Definition set_birthday (self : t) (b : option string) : t :=
  mk (name self) (phones self) b.

Definition add_phone (phone_number : string) (self : t) : result unit * t :=
  match Phone.new phone_number with
  | Err e => (Err e, self)
  | Ok p => (Ok tt, set_phones self (phones self ++ [p])%list)
  end.

Definition remove_phone (phone_number : string) (self : t) : result unit * t :=
  (Ok tt,
   set_phones self
     (filter (fun p => negb (String.eqb p phone_number)) (phones self))).

(** The first [Phone] object whose value is [phone_number], identified by
    its position in [self.phones]; [None] when there is none. *)
Fixpoint first_index (phone_number : string) (ps : list string) : option nat :=
  match ps with
  | [] => None
  | p :: rest =>
      if String.eqb p phone_number then Some O
      else option_map S (first_index phone_number rest)
  end.

Definition find_phone (phone_number : string) (self : t) : option nat :=
  first_index phone_number (phones self).

(** Assignment to the [value] attribute of the object at position [i]. *)
Fixpoint set_value (i : nat) (v : string) (ps : list string) : list string :=
  match ps, i with
  | [], _ => []
  | _ :: rest, O => v :: rest
  | p :: rest, S j => p :: set_value j v rest
  end.

Definition edit_phone (old_number new_number : string) (self : t)
  : result unit * t :=
  match find_phone old_number self with
  | None =>
      (Err (AttributeError "'NoneType' object has no attribute 'value'"), self)
  | Some i => (Ok tt, set_phones self (set_value i new_number (phones self)))
  end.

Definition add_birthday (b : string) (self : t) : result unit * t :=
  match birthday self with
  | Some _ =>
      (Err (ValueError "Birthday already exists for this contact"), self)
  | None =>
      match Birthday.new b with
      | Err e => (Err e, self)
      | Ok v => (Ok tt, set_birthday self (Some v))
      end
  end.

End Record_.

(** ** The address book *)

Module AddressBook.

(** [self.data], a dictionary from names to records. *)
Definition t : Type := list (string * Record_.t).

(** [d[k] = v]: an existing key keeps its position, a new one goes last. *)
Fixpoint dict_set {V : Type} (k : string) (v : V) (d : list (string * V))
  : list (string * V) :=
  match d with
  | [] => [(k, v)]
  | (k', v') :: rest =>
      if String.eqb k' k then (k', v) :: rest
      else (k', v') :: dict_set k v rest
  end.

(** [d.get(k)] *)
Fixpoint dict_get {V : Type} (k : string) (d : list (string * V)) : option V :=
  match d with
  | [] => None
  | (k', v') :: rest => if String.eqb k' k then Some v' else dict_get k rest
  end.

Fixpoint dict_del {V : Type} (k : string) (d : list (string * V))
  : list (string * V) :=
  match d with
  | [] => []
  | (k', v') :: rest =>
      if String.eqb k' k then rest else (k', v') :: dict_del k rest
  end.

Definition keys {V : Type} (d : list (string * V)) : list string :=
  map fst d.

Definition values {V : Type} (d : list (string * V)) : list V :=
  map snd d.

Definition add_record (record : Record_.t) (self : t) : t :=
  dict_set (Record_.name record) record self.

Definition find (nm : string) (self : t) : option Record_.t :=
  dict_get nm self.

Definition delete (nm : string) (self : t) : result unit * t :=
  match dict_get nm self with
  | None => (Err (KeyError nm), self)
  | Some _ => (Ok tt, dict_del nm self)
  end.

(** The [defaultdict(list)] the scheduler fills. *)
Definition buckets : Type := list (string * list string).

(** [birthdays[weekday].append(name)]: a missing key is first inserted with
    an empty list. *)
Fixpoint append_to (weekday nm : string) (birthdays : buckets) : buckets :=
  match birthdays with
  | [] => [(weekday, [nm])]
  | (k, names) :: rest =>
      if String.eqb k weekday then (k, (names ++ [nm])%list) :: rest
      else (k, names) :: append_to weekday nm rest
  end.

(** Line 90: the first day of the look-ahead window.  The clock is read
    once; [today] is its date. *)
Definition next_monday (today : Date.date) : result Date.date :=
  Date.add_days today ((7 - Date.weekday today) mod 7).

(** [weekday in ["Saturday", "Sunday"]] *)
Definition is_weekend (weekday : string) : bool :=
  existsb (String.eqb weekday) ["Saturday"; "Sunday"].

(** Lines 107 and 108: a weekend birthday is celebrated on Monday. *)
Definition celebrated (weekday : string) : string :=
  if is_weekend weekday then "Monday" else weekday.

(** Lines 98 to 101: the birthday moved to the year of the window start,
    and to the year after when that falls before the window start. *)
Definition anchor (today parsed : Date.date) : result Date.date :=
  birthday_this_year <- Date.replace_year parsed (Date.year today) ;;
  if Date.lt birthday_this_year today
  then Date.replace_year birthday_this_year (Date.year today + 1)
  else Ok birthday_this_year.

(** Lines 103 to 109, for the anchored date. *)
Definition place (today birthday_this_year : Date.date) (nm : string)
    (birthdays : buckets) : result buckets :=
  let delta_days := Date.sub_days birthday_this_year today in
  if delta_days <? 7 then
    shifted <- Date.add_days today delta_days ;;
    let weekday := Date.strftime_A shifted in
    let weekday := celebrated weekday in
    Ok (append_to weekday nm birthdays)
  else Ok birthdays.

(** The body of the loop, lines 95 to 109; [today] is the window start, as
    after line 91. *)
Definition visit (today : Date.date) (birthdays : buckets)
    (record : Record_.t) : result buckets :=
  let nm := Record_.name record in
  match Record_.birthday record with
  | None => Err (AttributeError "'NoneType' object has no attribute 'value'")
  | Some birthday =>
      if String.eqb birthday "" then Ok birthdays
      else
        parsed <- Strptime.strptime_dmY birthday ;;
        birthday_this_year <- anchor today parsed ;;
        place today birthday_this_year nm birthdays
  end.

Fixpoint loop (today : Date.date) (records : list Record_.t)
    (birthdays : buckets) : result buckets :=
  match records with
  | [] => Ok birthdays
  | record :: rest =>
      birthdays' <- visit today birthdays record ;;
      loop today rest birthdays'
  end.

Definition get_birthdays_per_week (now : Date.date) (self : t)
  : result buckets :=
  today <- next_monday now ;;
  loop today (values self) [].

End AddressBook.

(** ** Command handlers *)

(** The decorator [input_error]: a [ValueError] becomes its message, a
    [KeyError] a fixed text, any other exception passes through. *)
Definition input_error (r : result string) : result string :=
  match r with
  | Err (ValueError msg) => Ok msg
  | Err (KeyError _) => Ok "No such contact found."
  | other => other
  end.

Definition newline : string := String (ascii_of_nat 10) EmptyString.

Definition show_line (entry : string * list string) : string :=
  fst entry ++ ": " ++ String.concat ", " (snd entry) ++ newline.

Definition show_birthdays (now : Date.date) (address_book : AddressBook.t)
  : result string :=
  input_error
    (birthdays_per_week <- AddressBook.get_birthdays_per_week now address_book ;;
     Ok (String.concat "" (map show_line birthdays_per_week))).

(** The [add] command of [main]: a fresh record with one phone, stored
    only when the phone is accepted. *)
Definition command_add (nm phone : string) (address_book : AddressBook.t)
  : AddressBook.t :=
  match Record_.add_phone phone (Record_.init nm) with
  | (Ok _, record) => AddressBook.add_record record address_book
  | (Err _, _) => address_book
  end.

(** The [add-birthday] command. *)
Definition command_add_birthday (nm b : string) (address_book : AddressBook.t)
  : result string * AddressBook.t :=
  match AddressBook.find nm address_book with
  | Some contact =>
      match Record_.add_birthday b contact with
      | (Ok _, contact') =>
          (Ok ("Birthday added for " ++ nm),
           AddressBook.dict_set nm contact' address_book)
      | (Err e, _) => (input_error (Err e), address_book)
      end
  | None => (Ok "No such contact found", address_book)
  end.

(** ** Vocabulary of the statements *)

(** Every name the scheduler returned, bucket after bucket. *)
Definition names_of (birthdays : AddressBook.buckets) : list string :=
  List.concat (AddressBook.values birthdays).

(** A book as [add_record] builds it: every record is stored under its own
    name, and no key occurs twice. *)
Definition well_formed (self : AddressBook.t) : Prop :=
  NoDup (AddressBook.keys self)
  /\ Forall (fun kv => fst kv = Record_.name (snd kv)) self.

(** Every stored phone passes the check of the [Phone] constructor. *)
Definition phones_valid (self : Record_.t) : Prop :=
  Forall (fun p => Phone.validate p = true) (Record_.phones self).

(** The facts [month_day] has to meet on one day of the year, as a test
    that is run on every day below. *)
Definition month_day_ok (leap : bool) (n : Z) : bool :=
  let (m, d) := Date.month_day n leap in
  (1 <=? m) && (m <=? 12) && (1 <=? d)
  && (d <=? (if (m =? 2) && leap then 29 else Date.index Date.DAYS_IN_MONTH m))
  && (Date.index Date.DAYS_BEFORE_MONTH m
      + (if (2 <? m) && leap then 1 else 0) + d =? n + 1).

Definition year_days : list Z := map Z.of_nat (seq 0 365).

(** ** Vocabulary of the further statements *)

(** A call of one of the two methods of a record that add or delete
    phones. *)
Inductive phone_op : Type :=
| Add_phone (phone_number : string)
| Remove_phone (phone_number : string).

Definition apply_op (self : Record_.t) (op : phone_op) : Record_.t :=
  match op with
  | Add_phone p => snd (Record_.add_phone p self)
  | Remove_phone p => snd (Record_.remove_phone p self)
  end.

Definition apply_ops (ops : list phone_op) (self : Record_.t) : Record_.t :=
  fold_left apply_op ops self.

(** The bucket a record belongs to for the window that starts on [today]:
    the weekday, after the weekend rule, of its next birthday when that is
    fewer than seven days after [today]. *)
Definition slot (today : Date.date) (record : Record_.t) : option string :=
  match Record_.birthday record with
  | None => None
  | Some birthday =>
      match Strptime.strptime_dmY birthday with
      | Err _ => None
      | Ok parsed =>
          match AddressBook.anchor today parsed with
          | Err _ => None
          | Ok anchored =>
              if Date.sub_days anchored today <? 7
              then Some (AddressBook.celebrated (Date.strftime_A anchored))
              else None
          end
      end
  end.

Definition has_slot (today : Date.date) (w : string) (record : Record_.t)
  : bool :=
  match slot today record with
  | Some w' => String.eqb w' w
  | None => false
  end.

(** The names of the records of a list that belong to bucket [w], in the
    order of the list. *)
Definition names_for (today : Date.date) (w : string)
    (records : list Record_.t) : list string :=
  map Record_.name (filter (has_slot today w) records).

(** The slots of the records of a list that have one, in the order of the
    list. *)
Fixpoint slots (today : Date.date) (records : list Record_.t) : list string :=
  match records with
  | [] => []
  | record :: rest =>
      match slot today record with
      | Some w => w :: slots today rest
      | None => slots today rest
      end
  end.

(** The elements of a list in the order of their first occurrence. *)
Definition first_seen (l : list string) : list string :=
  fold_left (fun acc w => if existsb (String.eqb w) acc then acc
                          else (acc ++ [w])%list) l [].

Definition working_days : list string :=
  ["Monday"; "Tuesday"; "Wednesday"; "Thursday"; "Friday"].

(** A call of one of the two methods of the book that change it. *)
Inductive book_op : Type :=
| Add_record (record : Record_.t)
| Delete (nm : string).

Definition apply_book_op (self : AddressBook.t) (op : book_op)
  : AddressBook.t :=
  match op with
  | Add_record record => AddressBook.add_record record self
  | Delete nm => snd (AddressBook.delete nm self)
  end.

(** What one pass of the loop does to the buckets when nothing is raised. *)
Definition fill (today : Date.date) (birthdays : AddressBook.buckets)
    (record : Record_.t) : AddressBook.buckets :=
  match slot today record with
  | Some w => AddressBook.append_to w (Record_.name record) birthdays
  | None => birthdays
  end.

(** A list as the value of a key of a [defaultdict(list)]: present once
    something was appended. *)
Definition bucket (names : list string) : option (list string) :=
  match names with
  | [] => None
  | _ => Some names
  end.

(** A record whose birthday is read as a date other than 29 February. *)
Definition plain_birthday (record : Record_.t) : Prop :=
  exists birthday d,
    Record_.birthday record = Some birthday
    /\ Strptime.strptime_dmY birthday = Ok d
    /\ ~ (Date.month d = 2 /\ Date.day d = 29).

(** A record whose birthday is read as 29 February. *)
Definition leap_day_birthday (record : Record_.t) : Prop :=
  exists birthday d,
    Record_.birthday record = Some birthday
    /\ Strptime.strptime_dmY birthday = Ok d
    /\ Date.month d = 2 /\ Date.day d = 29.

(** The text D.M.YYYY of a date: day and month without a leading zero, the
    year with four digits. *)
Definition digits_short (k : Z) : list ascii :=
  if k <? 10 then [Strptime.digit_char k]
  else [Strptime.digit_char (k / 10); Strptime.digit_char (k mod 10)].

Definition format_short (d : Date.date) : string :=
  let yy := Date.year d in
  string_of_list_ascii
    (digits_short (Date.day d) ++ "."%char
     :: digits_short (Date.month d) ++ "."%char
     :: [Strptime.digit_char (yy / 1000); Strptime.digit_char (yy / 100 mod 10);
         Strptime.digit_char (yy / 10 mod 10); Strptime.digit_char (yy mod 10)])%list.

(** Takes the second branch of a conditional whose test is a combination
    of comparisons that linear arithmetic refutes. *)
Ltac second_branch :=
  match goal with
  | |- (if ?c then _ else _) = _ =>
      let T := fresh "T" in
      assert (T : c = false);
      [ rewrite ?orb_false_iff, ?andb_false_iff, ?Z.leb_gt, ?Z.eqb_neq;
        Z.div_mod_to_equations; lia
      | rewrite T ]
  end.

(** A text of exactly ten characters, each one of 0 to 9. *)
Definition ten_digits (s : string) : Prop :=
  String.length s = 10%nat
  /\ Forall (fun c => 48 <= Strptime.code c <= 57) (list_ascii_of_string s).

(** ** The text of a record, [show_birthday] and [parse_input] *)

(** [Record.__str__] *)
Definition Record_str (self : Record_.t) : string :=
  let phone_info := String.concat "; " (Record_.phones self) in
  let birthday_info :=
    match Record_.birthday self with
    | Some value => ", Birthday: " ++ value
    | None => ""
    end in
  "Contact name: " ++ Record_.name self ++ ", phones: " ++ phone_info
  ++ birthday_info.

(** [show_birthday], called with at least one argument; [nm] is
    [args[0]]. *)
Definition show_birthday (nm : string) (address_book : AddressBook.t)
  : string :=
  match AddressBook.find nm address_book with
  | Some contact =>
      match Record_.birthday contact with
      | Some value => nm ++ "'s birthday: " ++ value
      | None => nm ++ " doesn't have a birthday set."
      end
  | None => "No such contact found."
  end.

(** [str.isspace] on one ASCII character: tab to carriage return, the
    four separators 28 to 31, and the space. *)
Definition is_whitespace (c : ascii) : bool :=
  Strptime.between 9 13 c || Strptime.between 28 32 c.

(** [str.split()]: the maximal runs of characters that are not
    whitespace; [word] holds the run being read, last character first. *)
Fixpoint split_from (word : list ascii) (s : list ascii)
  : list (list ascii) :=
  match s with
  | [] =>
      match word with
      | [] => []
      | _ => [rev word]
      end
  | c :: rest =>
      if is_whitespace c then
        match word with
        | [] => split_from [] rest
        | _ => rev word :: split_from [] rest
        end
      else split_from (c :: word) rest
  end.

Definition split (s : string) : list string :=
  map string_of_list_ascii (split_from [] (list_ascii_of_string s)).






(** ** The loop of [main] *)

(** An exception that no handler of the loop catches; it ends the
    program.  Indexing a list raises [IndexError]. *)
Inductive uncaught : Type :=
| Raised (e : exn)
| IndexError (msg : string).

(** What one pass of the loop does: it prints lines and goes on with the
    book, or prints and leaves the loop, or ends the program with an
    exception. *)
Inductive pass : Type :=
| Continue (lines : list string) (address_book : AddressBook.t)
| Break (lines : list string)
| Crash (u : uncaught).

(** [name, phone = args] *)
Definition unpack2 (args : list string) : result (string * string) :=
  match args with
  | [] => Err (ValueError "not enough values to unpack (expected 2, got 0)")
  | [_] => Err (ValueError "not enough values to unpack (expected 2, got 1)")
  | [a; b] => Ok (a, b)
  | _ => Err (ValueError "too many values to unpack (expected 2)")
  end.

(** The branches of the loop body for a parsed command. *)
Definition dispatch (now : Date.date) (address_book : AddressBook.t)
    (command : string) (args : list string) : pass :=
  if existsb (String.eqb command) ["close"; "exit"] then Break ["Goodbye!"]
  else if String.eqb command "hello"
  then Continue ["How can I help you?"] address_book
  else if String.eqb command "add" then
    match unpack2 args with
    | Err e => Crash (Raised e)
    | Ok (nm, phone) =>
        match Record_.add_phone phone (Record_.init nm) with
        | (Ok _, record) =>
            Continue ["Contact added."]
              (AddressBook.add_record record address_book)
        | (Err (ValueError msg), _) => Continue [msg] address_book
        | (Err e, _) => Crash (Raised e)
        end
    end
  else if String.eqb command "change" then
    match unpack2 args with
    | Err e => Crash (Raised e)
    | Ok (nm, phone) =>
        match AddressBook.find nm address_book with
        | Some record =>
            match Record_.add_phone phone record with
            | (Ok _, record') =>
                Continue ["Phone number updated for " ++ nm]
                  (AddressBook.dict_set nm record' address_book)
            | (Err (ValueError msg), _) => Continue [msg] address_book
            | (Err e, _) => Crash (Raised e)
            end
        | None => Continue ["No such contact found."] address_book
        end
    end
  else if String.eqb command "phone" then
    match args with
    | [] => Crash (IndexError "list index out of range")
    | nm :: _ =>
        match AddressBook.find nm address_book with
        | Some record =>
            match Record_.phones record with
            | [] => Crash (IndexError "list index out of range")
            | p :: _ => Continue [p] address_book
            end
        | None => Continue ["No such contact found."] address_book
        end
    end
  else if String.eqb command "all"
  then Continue (map Record_str (AddressBook.values address_book))
         address_book
  else if String.eqb command "add-birthday" then
    match unpack2 args with
    | Err e =>
        match input_error (Err e) with
        | Ok text => Continue [text] address_book
        | Err e' => Crash (Raised e')
        end
    | Ok (nm, b) =>
        match command_add_birthday nm b address_book with
        | (Ok text, address_book') => Continue [text] address_book'
        | (Err e, _) => Crash (Raised e)
        end
    end
  else if String.eqb command "show-birthday" then
    match args with
    | [] => Crash (IndexError "list index out of range")
    | nm :: _ => Continue [show_birthday nm address_book] address_book
    end
  else if String.eqb command "birthdays" then
    match show_birthdays now address_book with
    | Ok text => Continue [text] address_book
    | Err e => Crash (Raised e)
    end
  else Continue ["Invalid command."] address_book.





(** What every book of a run satisfies: it is well formed, every record
    has a phone, all its phones pass the check of [Phone], and its
    birthday, when set, passes the check of [Birthday]. *)
Definition record_sound (record : Record_.t) : Prop :=
  Record_.phones record <> []
  /\ phones_valid record
  /\ forall value, Record_.birthday record = Some value ->
                   Birthday.validate value = true.

Definition book_sound (address_book : AddressBook.t) : Prop :=
  well_formed address_book
  /\ Forall (fun kv => record_sound (snd kv)) address_book.



(** ** Vocabulary of the statements on the returned mapping *)

(** The next occurrence of a birthday, in the words of the specification:
    the first date on or after the window start [today] that has the month
    and the day of the birthday [parsed]. *)
Definition next_occurrence (today parsed d : Date.date) : Prop :=
  Date.valid d = true
  /\ Date.month d = Date.month parsed
  /\ Date.day d = Date.day parsed
  /\ Date.toordinal today <= Date.toordinal d
  /\ forall d',
       Date.valid d' = true ->
       Date.month d' = Date.month parsed ->
       Date.day d' = Date.day parsed ->
       Date.toordinal today <= Date.toordinal d' ->
       Date.toordinal d <= Date.toordinal d'.

(** The name is in the list that the mapping holds under the key. *)
Definition listed_under (w nm : string) (birthdays : AddressBook.buckets)
  : Prop :=
  exists names,
    AddressBook.dict_get w birthdays = Some names /\ In nm names.

(** A text of ASCII characters only. *)
Definition ascii_text (s : string) : Prop :=
  Forall (fun c => Strptime.code c < 128) (list_ascii_of_string s).

(** ** Proof tactics *)

(** Decides comparisons of numerals left in a goal. *)
Ltac calc_bool :=
  cbn [andb orb negb Z.eqb Z.ltb Z.leb Z.compare Pos.compare Pos.compare_cont
       Pos.eqb] in *.

(** Takes the first branch of a conditional whose test is a combination of
    comparisons that linear arithmetic settles. *)
Ltac first_branch :=
  match goal with
  | |- (if ?c then _ else _) = _ =>
      let T := fresh "T" in
      assert (T : c = true);
      [ rewrite ?orb_true_iff, ?andb_true_iff, ?Z.leb_le, ?Z.eqb_eq;
        Z.div_mod_to_equations; lia
      | rewrite T ]
  end.

(** * Properties *)

(** ** The calendar *)

Section Calendar.

Import Date.


Lemma index_dbm m : 1 <= m <= 12 ->
  m = 1 /\ index DAYS_BEFORE_MONTH m = 0 /\ index DAYS_IN_MONTH m = 31 \/
  m = 2 /\ index DAYS_BEFORE_MONTH m = 31 /\ index DAYS_IN_MONTH m = 28 \/
  m = 3 /\ index DAYS_BEFORE_MONTH m = 59 /\ index DAYS_IN_MONTH m = 31 \/
  m = 4 /\ index DAYS_BEFORE_MONTH m = 90 /\ index DAYS_IN_MONTH m = 30 \/
  m = 5 /\ index DAYS_BEFORE_MONTH m = 120 /\ index DAYS_IN_MONTH m = 31 \/
  m = 6 /\ index DAYS_BEFORE_MONTH m = 151 /\ index DAYS_IN_MONTH m = 30 \/
  m = 7 /\ index DAYS_BEFORE_MONTH m = 181 /\ index DAYS_IN_MONTH m = 31 \/
  m = 8 /\ index DAYS_BEFORE_MONTH m = 212 /\ index DAYS_IN_MONTH m = 31 \/
  m = 9 /\ index DAYS_BEFORE_MONTH m = 243 /\ index DAYS_IN_MONTH m = 30 \/
  m = 10 /\ index DAYS_BEFORE_MONTH m = 273 /\ index DAYS_IN_MONTH m = 31 \/
  m = 11 /\ index DAYS_BEFORE_MONTH m = 304 /\ index DAYS_IN_MONTH m = 30 \/
  m = 12 /\ index DAYS_BEFORE_MONTH m = 334 /\ index DAYS_IN_MONTH m = 31.
Proof.
  intros H.
  assert (C : m = 1 \/ m = 2 \/ m = 3 \/ m = 4 \/ m = 5 \/ m = 6 \/ m = 7
              \/ m = 8 \/ m = 9 \/ m = 10 \/ m = 11 \/ m = 12) by lia.
  repeat (destruct C as [C | C]; [subst m; tauto | ]). subst m; tauto.
Qed.

Lemma month_day_ok_all (leap : bool) : forallb (month_day_ok leap) year_days = true.
Proof. destruct leap; vm_compute; reflexivity. Qed.

Lemma month_day_spec (n : Z) (leap : bool) (m d : Z) :
  0 <= n < 365 -> month_day n leap = (m, d) ->
  1 <= m <= 12 /\
  1 <= d <= (if (m =? 2) && leap then 29 else index DAYS_IN_MONTH m) /\
  index DAYS_BEFORE_MONTH m + (if (2 <? m) && leap then 1 else 0) + d = n + 1.
Proof.
  intros Hn E.
  assert (Hin : In n year_days).
  { unfold year_days. apply in_map_iff. exists (Z.to_nat n). split; [lia|].
    apply in_seq. lia. }
  pose proof (proj1 (forallb_forall _ _) (month_day_ok_all leap) n Hin) as H.
  unfold month_day_ok in H. rewrite E in H.
  repeat (apply andb_prop in H; destruct H as [H ?]).
  repeat match goal with
  | H : (_ <=? _) = true |- _ => apply Z.leb_le in H
  | H : (_ =? _) = true |- _ => apply Z.eqb_eq in H
  end. lia.
Qed.

Lemma days_before_year_split (a b c d : Z) :
  0 <= b <= 3 -> 0 <= c <= 24 -> 0 <= d <= 3 ->
  days_before_year (a * 400 + 1 + (b * 100 + c * 4 + d))
  = a * DI400Y + b * DI100Y + c * DI4Y + d * 365.
Proof.
  intros Hb Hc Hd. unfold days_before_year, DI400Y, DI100Y, DI4Y. cbv zeta.
  Z.div_mod_to_equations. lia.
Qed.

Lemma is_leap_split (a b c d : Z) :
  0 <= b <= 3 -> 0 <= c <= 24 -> 0 <= d <= 3 ->
  is_leap (a * 400 + 1 + (b * 100 + c * 4 + d))
  = (d =? 3) && (negb (c =? 24) || (b =? 3)).
Proof.
  intros Hb Hc Hd. unfold is_leap.
  destruct (Z.eqb_spec d 3), (Z.eqb_spec c 24), (Z.eqb_spec b 3); cbn;
  repeat match goal with
  | |- context [?x mod ?k =? 0] => destruct (Z.eqb_spec (x mod k) 0)
  end; cbn; try reflexivity; exfalso; Z.div_mod_to_equations; lia.
Qed.

Lemma valid_iff (d : date) :
  valid d = true <->
  1 <= year d <= 9999 /\ 1 <= month d <= 12 /\
  1 <= day d <= days_in_month (year d) (month d).
Proof.
  unfold valid, check_date_fields, MINYEAR, MAXYEAR.
  destruct (Z.leb_spec 1 (year d)), (Z.leb_spec (year d) 9999),
    (Z.leb_spec 1 (month d)), (Z.leb_spec (month d) 12),
    (Z.leb_spec 1 (day d)),
    (Z.leb_spec (day d) (days_in_month (year d) (month d)));
    cbn; split; intros; try discriminate; try reflexivity; lia.
Qed.

Lemma ord2ymd_spec (n : Z) :
  1 <= n <= MAXORDINAL ->
  valid (ord2ymd n) = true /\ toordinal (ord2ymd n) = n.
Proof.
  unfold MAXORDINAL. intros Hn. unfold ord2ymd. cbv zeta.
  set (m0 := n - 1).
  set (a := m0 / DI400Y). set (r1 := m0 mod DI400Y).
  set (b := r1 / DI100Y). set (r2 := r1 mod DI100Y).
  set (c := r2 / DI4Y). set (r3 := r2 mod DI4Y).
  set (d := r3 / 365). set (r4 := r3 mod 365).
  assert (E0 : m0 = DI400Y * a + r1 /\ 0 <= r1 < DI400Y).
  { unfold a, r1, DI400Y. split; [apply Z.div_mod; lia | apply Z.mod_pos_bound; lia]. }
  assert (E1 : r1 = DI100Y * b + r2 /\ 0 <= r2 < DI100Y).
  { unfold b, r2, DI100Y. split; [apply Z.div_mod; lia | apply Z.mod_pos_bound; lia]. }
  assert (E2 : r2 = DI4Y * c + r3 /\ 0 <= r3 < DI4Y).
  { unfold c, r3, DI4Y. split; [apply Z.div_mod; lia | apply Z.mod_pos_bound; lia]. }
  assert (E3 : r3 = 365 * d + r4 /\ 0 <= r4 < 365).
  { unfold d, r4. split; [apply Z.div_mod; lia | apply Z.mod_pos_bound; lia]. }
  assert (Hm0 : m0 = n - 1) by reflexivity.
  clearbody m0 a r1 b r2 c r3 d r4.
  unfold DI400Y, DI100Y, DI4Y in *.
  assert (Ha : 0 <= a) by lia.
  assert (Hb : 0 <= b <= 4) by lia.
  assert (Hc : 0 <= c <= 24) by lia.
  assert (Hd : 0 <= d <= 4) by lia.
  destruct (Z.eqb_spec d 4) as [Ed | Nd]; [ | destruct (Z.eqb_spec b 4) as [Eb | Nb] ]; cbn [orb].
  - (* the last day of a leap year *)
    assert (Hy : 1 <= a * 400 + 1 + (b * 100 + c * 4 + d) - 1 <= 9999) by lia.
    assert (Hb' : b <= 3) by lia.
    replace (a * 400 + 1 + (b * 100 + c * 4 + d) - 1)
      with (a * 400 + 1 + (b * 100 + c * 4 + 3)) in * by lia.
    rewrite valid_iff. unfold toordinal, ymd2ord, days_in_month, days_before_month.
    cbn [year month day].
    rewrite days_before_year_split by lia.
    rewrite is_leap_split by lia.
    unfold DI400Y, DI100Y, DI4Y.
    change (12 =? 2) with false. change (2 <? 12) with true. cbn [andb].
    change (index DAYS_IN_MONTH 12) with 31.
    change (index DAYS_BEFORE_MONTH 12) with 334.
    change (3 =? 3) with true. cbn [andb].
    assert (L : negb (c =? 24) || (b =? 3) = true).
    { destruct (Z.eqb_spec c 24), (Z.eqb_spec b 3); cbn; try reflexivity. lia. }
    rewrite L. lia.
  - (* the last day of a 400-year cycle *)
    assert (r2 = 0 /\ c = 0 /\ d = 0 /\ r4 = 0) as (-> & -> & -> & ->) by lia.
    subst b.
    assert (Hy : a <= 23) by lia.
    replace (a * 400 + 1 + (4 * 100 + 0 * 4 + 0) - 1)
      with (a * 400 + 1 + (3 * 100 + 24 * 4 + 3)) in * by lia.
    rewrite valid_iff. unfold toordinal, ymd2ord, days_in_month, days_before_month.
    cbn [year month day].
    rewrite days_before_year_split by lia.
    rewrite is_leap_split by lia.
    unfold DI400Y, DI100Y, DI4Y.
    change (12 =? 2) with false. change (2 <? 12) with true.
    change (index DAYS_IN_MONTH 12) with 31.
    change (index DAYS_BEFORE_MONTH 12) with 334.
    cbn [andb orb negb Z.eqb Pos.eqb]. lia.
  - cbn [orb].
    assert (Hd' : d <= 3) by lia. assert (Hb' : b <= 3) by lia.
    destruct (month_day r4 ((d =? 3) && (negb (c =? 24) || (b =? 3)))) as [m dd] eqn:E.
    apply month_day_spec in E; [ | lia ].
    rewrite valid_iff. unfold toordinal, ymd2ord, days_in_month, days_before_month.
    cbn [year month day].
    rewrite days_before_year_split by lia.
    rewrite is_leap_split by lia.
    unfold DI400Y, DI100Y, DI4Y. lia.
Qed.

Lemma days_before_year_succ (y : Z) :
  days_before_year (y + 1)
  = days_before_year y + 365 + (if is_leap y then 1 else 0).
Proof.
  unfold days_before_year, is_leap. cbv zeta.
  replace (y + 1 - 1) with y by lia.
  repeat match goal with
  | |- context [?x mod ?k =? 0] => destruct (Z.eqb_spec (x mod k) 0)
  end; cbn [andb orb negb]; Z.div_mod_to_equations; lia.
Qed.

Lemma days_before_year_mono (y y' : Z) :
  y <= y' -> days_before_year y <= days_before_year y'.
Proof.
  unfold days_before_year. cbv zeta. intros H.
  Z.div_mod_to_equations. lia.
Qed.

Lemma yday_bounds (y m d : Z) :
  1 <= m <= 12 -> 1 <= d <= days_in_month y m ->
  1 <= days_before_month y m + d <= 365 + (if is_leap y then 1 else 0).
Proof.
  unfold days_in_month, days_before_month. intros Hm.
  destruct (index_dbm m Hm) as
    [H|[H|[H|[H|[H|[H|[H|[H|[H|[H|[H|H]]]]]]]]]]];
    destruct H as (-> & -> & ->); destruct (is_leap y); calc_bool; lia.
Qed.

Lemma yday_lt (y m d m' d' : Z) :
  1 <= m <= 12 -> 1 <= d <= days_in_month y m ->
  1 <= m' <= 12 -> 1 <= d' <= days_in_month y m' ->
  m < m' \/ (m = m' /\ d < d') ->
  days_before_month y m + d < days_before_month y m' + d'.
Proof.
  unfold days_in_month, days_before_month. intros Hm Hd Hm' Hd' Hlt.
  destruct (index_dbm m Hm) as
    [H|[H|[H|[H|[H|[H|[H|[H|[H|[H|[H|H]]]]]]]]]]];
    destruct H as (E & E1 & E2); rewrite E1, E2 in *; clear E1 E2; subst m;
  destruct (index_dbm m' Hm') as
    [H|[H|[H|[H|[H|[H|[H|[H|[H|[H|[H|H]]]]]]]]]]];
    destruct H as (E & E1 & E2); rewrite E1, E2 in *; clear E1 E2; subst m';
    try (exfalso; lia);
    destruct (is_leap y); calc_bool; lia.
Qed.

Lemma date_lt_iff (a b : date) :
  lt a b = true <->
  year a < year b \/
  (year a = year b /\
   (month a < month b \/ (month a = month b /\ day a < day b))).
Proof.
  unfold lt.
  destruct (Z.ltb_spec (year a) (year b)), (Z.eqb_spec (year a) (year b)),
    (Z.ltb_spec (month a) (month b)), (Z.eqb_spec (month a) (month b)),
    (Z.ltb_spec (day a) (day b)); cbn; split; intros; try discriminate;
    try reflexivity; lia.
Qed.

Lemma toordinal_lt (a b : date) :
  valid a = true -> valid b = true -> lt a b = true ->
  toordinal a < toordinal b.
Proof.
  rewrite !valid_iff, date_lt_iff. unfold toordinal, ymd2ord.
  intros (Hya & Hma & Hda) (Hyb & Hmb & Hdb) [Hy | (Hy & Hmd)].
  - pose proof (yday_bounds _ _ _ Hma Hda).
    pose proof (yday_bounds _ _ _ Hmb Hdb).
    pose proof (days_before_year_succ (year a)).
    pose proof (days_before_year_mono (year a + 1) (year b) ltac:(lia)).
    lia.
  - rewrite Hy in *.
    pose proof (yday_lt _ _ _ _ _ Hma Hda Hmb Hdb Hmd). lia.
Qed.

Lemma toordinal_range (d : date) :
  valid d = true -> 1 <= toordinal d <= MAXORDINAL.
Proof.
  rewrite valid_iff. unfold toordinal, ymd2ord, MAXORDINAL.
  intros (Hy & Hm & Hd).
  pose proof (yday_bounds _ _ _ Hm Hd).
  pose proof (days_before_year_succ (year d)).
  pose proof (days_before_year_mono 1 (year d) ltac:(lia)).
  pose proof (days_before_year_mono (year d + 1) 10000 ltac:(lia)).
  change (days_before_year 1) with 0 in *.
  change (days_before_year 10000) with 3652059 in *.
  lia.
Qed.

Lemma date_eq (a b : date) :
  year a = year b -> month a = month b -> day a = day b -> a = b.
Proof. destruct a, b; cbn; intros; subst; reflexivity. Qed.

Lemma date_lt_trichotomy (a b : date) :
  lt a b = true \/ a = b \/ lt b a = true.
Proof.
  rewrite !date_lt_iff.
  destruct (Z.lt_trichotomy (year a) (year b)) as [?|[?|?]];
  destruct (Z.lt_trichotomy (month a) (month b)) as [?|[?|?]];
  destruct (Z.lt_trichotomy (day a) (day b)) as [?|[?|?]];
  try (right; left; apply date_eq; assumption); try (left; lia); right; right; lia.
Qed.

Lemma toordinal_inj (a b : date) :
  valid a = true -> valid b = true -> toordinal a = toordinal b -> a = b.
Proof.
  intros Ha Hb E.
  destruct (date_lt_trichotomy a b) as [H | [H | H]]; [ | exact H | ].
  - pose proof (toordinal_lt _ _ Ha Hb H). lia.
  - pose proof (toordinal_lt _ _ Hb Ha H). lia.
Qed.

Lemma ord2ymd_toordinal (d : date) :
  valid d = true -> ord2ymd (toordinal d) = d.
Proof.
  intros Hd. pose proof (toordinal_range d Hd) as Hr.
  destruct (ord2ymd_spec _ Hr) as [Hv Ho].
  apply toordinal_inj; assumption.
Qed.

Lemma date_lt_false_ge (a b : date) :
  valid a = true -> valid b = true -> lt a b = false ->
  toordinal b <= toordinal a.
Proof.
  intros Ha Hb H.
  destruct (date_lt_trichotomy a b) as [H' | [H' | H']].
  - congruence.
  - subst. lia.
  - pose proof (toordinal_lt _ _ Hb Ha H'). lia.
Qed.

End Calendar.

Section Arithmetic_of_dates.

Import Date.

Lemma fromordinal_ok (n : Z) :
  1 <= n <= MAXORDINAL -> fromordinal n = Ok (ord2ymd n).
Proof.
  intros H. unfold fromordinal.
  destruct (Z.ltb_spec n 1); [lia | ].
  destruct (Z.ltb_spec MAXORDINAL n); [lia | reflexivity].
Qed.

Lemma add_days_ok (d : date) (n : Z) :
  1 <= toordinal d + n <= MAXORDINAL ->
  add_days d n = Ok (ord2ymd (toordinal d + n)).
Proof.
  intros H. unfold add_days. cbv zeta.
  destruct (Z.ltb_spec 0 (toordinal d + n)); [ | lia].
  destruct (Z.leb_spec (toordinal d + n) MAXORDINAL); [ | lia].
  cbn [andb]. apply fromordinal_ok. exact H.
Qed.

Lemma add_days_inv (d d' : date) (n : Z) :
  add_days d n = Ok d' ->
  valid d' = true /\ toordinal d' = toordinal d + n.
Proof.
  unfold add_days, fromordinal. cbv zeta.
  destruct (Z.ltb_spec 0 (toordinal d + n)); cbn [andb]; [ | discriminate].
  destruct (Z.leb_spec (toordinal d + n) MAXORDINAL); [ | discriminate].
  destruct (Z.ltb_spec (toordinal d + n) 1); [discriminate | ].
  destruct (Z.ltb_spec MAXORDINAL (toordinal d + n)); [discriminate | ].
  intros E. injection E as <-. apply ord2ymd_spec. lia.
Qed.

(** Adding the difference of two dates to the earlier one gives the later
    one. *)
Lemma add_days_sub_days (a b : date) :
  valid a = true -> valid b = true ->
  add_days a (sub_days b a) = Ok b.
Proof.
  intros Ha Hb. pose proof (toordinal_range b Hb).
  unfold sub_days. rewrite add_days_ok by lia.
  replace (toordinal a + (toordinal b - toordinal a)) with (toordinal b) by lia.
  rewrite ord2ymd_toordinal by assumption. reflexivity.
Qed.

Lemma add_days_0 (d : date) : valid d = true -> add_days d 0 = Ok d.
Proof.
  intros Hd. pose proof (toordinal_range d Hd).
  rewrite add_days_ok by lia. rewrite Z.add_0_r.
  rewrite ord2ymd_toordinal by assumption. reflexivity.
Qed.

Lemma weekday_range (d : date) : 0 <= weekday d <= 6.
Proof. unfold weekday. pose proof (Z.mod_pos_bound (toordinal d + 6) 7). lia. Qed.

Lemma replace_year_inv (d d' : date) (y : Z) :
  replace_year d y = Ok d' ->
  d' = mkdate y (month d) (day d) /\ valid d' = true.
Proof.
  unfold replace_year, new, valid.
  destruct (check_date_fields y (month d) (day d)) as [[] | e] eqn:E; cbn.
  - intros H. injection H as <-. cbn. rewrite E. split; reflexivity.
  - discriminate.
Qed.

Lemma new_valid (d : date) :
  valid d = true -> new (year d) (month d) (day d) = Ok d.
Proof.
  unfold valid, new.
  destruct (check_date_fields (year d) (month d) (day d)) as [[] | e]; cbn.
  - destruct d; reflexivity.
  - discriminate.
Qed.

Lemma strftime_A_weekday (d : date) :
  (weekday d = 0 /\ strftime_A d = "Monday")
  \/ (weekday d = 1 /\ strftime_A d = "Tuesday")
  \/ (weekday d = 2 /\ strftime_A d = "Wednesday")
  \/ (weekday d = 3 /\ strftime_A d = "Thursday")
  \/ (weekday d = 4 /\ strftime_A d = "Friday")
  \/ (weekday d = 5 /\ strftime_A d = "Saturday")
  \/ (weekday d = 6 /\ strftime_A d = "Sunday").
Proof.
  unfold strftime_A. pose proof (weekday_range d) as H.
  assert (C : weekday d = 0 \/ weekday d = 1 \/ weekday d = 2 \/ weekday d = 3
              \/ weekday d = 4 \/ weekday d = 5 \/ weekday d = 6) by lia.
  repeat (destruct C as [C | C]; [rewrite C; tauto | ]). rewrite C; tauto.
Qed.

End Arithmetic_of_dates.

Section Window.

Import Date AddressBook.

Lemma next_monday_total (now : date) :
  valid now = true -> toordinal now + 6 <= MAXORDINAL ->
  exists today, next_monday now = Ok today.
Proof.
  intros Hv Hr. pose proof (toordinal_range now Hv).
  pose proof (Z.mod_pos_bound (7 - weekday now) 7 ltac:(lia)).
  unfold next_monday. rewrite add_days_ok by lia. eexists; reflexivity.
Qed.

Lemma next_monday_inv (now today : date) :
  next_monday now = Ok today ->
  valid today = true /\ weekday today = 0
  /\ toordinal now <= toordinal today < toordinal now + 7.
Proof.
  unfold next_monday. intros H. apply add_days_inv in H. destruct H as [Hv Ho].
  split; [exact Hv | ].
  unfold weekday in *. rewrite Ho.
  split; Z.div_mod_to_equations; lia.
Qed.

Lemma anchor_inv (today parsed anchored : date) :
  valid today = true ->
  anchor today parsed = Ok anchored ->
  valid anchored = true
  /\ month anchored = month parsed /\ day anchored = day parsed
  /\ (year anchored = year today \/ year anchored = year today + 1)
  /\ toordinal today <= toordinal anchored.
Proof.
  intros Hv. unfold anchor.
  destruct (replace_year parsed (year today)) as [this | e] eqn:E1; cbn [bind];
    [ | discriminate].
  apply replace_year_inv in E1. destruct E1 as [-> Hthis].
  destruct (lt _ today) eqn:L.
  - intros E2. apply replace_year_inv in E2. cbn in E2. destruct E2 as [-> Hadv].
    cbn. repeat split; try lia; try assumption.
    apply Z.lt_le_incl. apply toordinal_lt; try assumption.
    apply date_lt_iff. cbn. lia.
  - intros E2. injection E2 as <-. cbn. repeat split; try lia; try assumption.
    apply date_lt_false_ge; assumption.
Qed.

Lemma place_in_window (today anchored : date) (nm : string) (birthdays : buckets) :
  valid today = true -> valid anchored = true ->
  sub_days anchored today < 7 ->
  place today anchored nm birthdays
  = Ok (append_to (celebrated (strftime_A anchored)) nm birthdays).
Proof.
  intros Ht Ha Hd. unfold place. cbv zeta.
  destruct (Z.ltb_spec (sub_days anchored today) 7); [ | lia].
  rewrite add_days_sub_days by assumption. reflexivity.
Qed.

Lemma place_outside (today anchored : date) (nm : string) (birthdays : buckets) :
  7 <= sub_days anchored today ->
  place today anchored nm birthdays = Ok birthdays.
Proof.
  intros Hd. unfold place. cbv zeta.
  destruct (Z.ltb_spec (sub_days anchored today) 7); [lia | reflexivity].
Qed.

End Window.

Section Parsing.

Import Date Strptime.

Lemma code_digit_char (k : Z) : 0 <= k <= 9 -> code (digit_char k) = k + 48.
Proof.
  intros H. unfold code, digit_char.
  rewrite nat_ascii_embedding by lia. lia.
Qed.

Lemma match_dot_dot (rest : list ascii) :
  match_dot ("."%char :: rest) = Some rest.
Proof. reflexivity. Qed.

Lemma strptime_valid (s : string) (d : date) :
  strptime_dmY s = Ok d -> valid d = true.
Proof.
  unfold strptime_dmY.
  destruct (match_d _) as [[dd s1] | ]; [ | discriminate].
  destruct (match_dot s1) as [s2 | ]; [ | discriminate].
  destruct (match_m s2) as [[mm s3] | ]; [ | discriminate].
  destruct (match_dot s3) as [s4 | ]; [ | discriminate].
  destruct (match_Y s4) as [[yy [ | c s5]] | ]; try discriminate.
  unfold new, valid.
  destruct (check_date_fields yy mm dd) as [[] | e] eqn:E; cbn; [ | discriminate].
  intros H. injection H as <-. cbn. rewrite E. reflexivity.
Qed.

Lemma strptime_empty : strptime_dmY "" = Err no_match.
Proof. reflexivity. Qed.

Lemma match_d_digits (dd : Z) (rest : list ascii) :
  1 <= dd <= 31 ->
  match_d (digit_char (dd / 10) :: digit_char (dd mod 10) :: rest)
  = Some (dd, rest).
Proof.
  intros H. unfold match_d, is_digit, between, digit_val.
  rewrite !code_digit_char by (Z.div_mod_to_equations; lia).
  first_branch. f_equal. f_equal. Z.div_mod_to_equations. lia.
Qed.

Lemma match_m_digits (mm : Z) (rest : list ascii) :
  1 <= mm <= 12 ->
  match_m (digit_char (mm / 10) :: digit_char (mm mod 10) :: rest)
  = Some (mm, rest).
Proof.
  intros H. unfold match_m, between, digit_val.
  rewrite !code_digit_char by (Z.div_mod_to_equations; lia).
  first_branch. f_equal. f_equal. Z.div_mod_to_equations. lia.
Qed.

Lemma match_Y_digits (yy : Z) :
  0 <= yy <= 9999 ->
  match_Y [digit_char (yy / 1000); digit_char (yy / 100 mod 10);
           digit_char (yy / 10 mod 10); digit_char (yy mod 10)]
  = Some (yy, []).
Proof.
  intros H. unfold match_Y, is_digit, between, digit_val.
  rewrite !code_digit_char by (Z.div_mod_to_equations; lia).
  assert (T : (48 <=? yy / 1000 + 48) && (yy / 1000 + 48 <=? 57)
              && ((48 <=? yy / 100 mod 10 + 48) && (yy / 100 mod 10 + 48 <=? 57))
              && ((48 <=? yy / 10 mod 10 + 48) && (yy / 10 mod 10 + 48 <=? 57))
              && ((48 <=? yy mod 10 + 48) && (yy mod 10 + 48 <=? 57)) = true).
  { rewrite !andb_true_iff, !Z.leb_le. Z.div_mod_to_equations. lia. }
  rewrite T. f_equal. f_equal. Z.div_mod_to_equations. lia.
Qed.

Lemma days_in_month_le_31 (y m : Z) : 1 <= m <= 12 -> days_in_month y m <= 31.
Proof.
  intros Hm. unfold days_in_month.
  destruct (index_dbm m Hm) as
    [H|[H|[H|[H|[H|[H|[H|[H|[H|[H|[H|H]]]]]]]]]]];
    destruct H as (-> & _ & ->); destruct (is_leap y); calc_bool; lia.
Qed.

(** A valid date written DD.MM.YYYY is read back as that date. *)
Lemma strptime_format (d : date) :
  valid d = true -> strptime_dmY (format_dmY d) = Ok d.
Proof.
  intros Hv. pose proof Hv as Hv'. apply valid_iff in Hv'.
  destruct Hv' as (Hy & Hm & Hd).
  pose proof (days_in_month_le_31 (year d) _ Hm).
  unfold strptime_dmY, format_dmY. cbv zeta.
  rewrite list_ascii_of_string_of_list_ascii.
  rewrite match_d_digits by lia. rewrite match_dot_dot.
  rewrite match_m_digits by lia. rewrite match_dot_dot.
  rewrite match_Y_digits by lia.
  apply new_valid. exact Hv.
Qed.

End Parsing.

(** ** Dictionaries *)

Section Dictionaries.

Import AddressBook.

Context {V : Type}.

Lemma dict_get_set_same (k : string) (v : V) (d : list (string * V)) :
  dict_get k (dict_set k v d) = Some v.
Proof.
  induction d as [ | [k' v'] d IH]; cbn.
  - rewrite String.eqb_refl. reflexivity.
  - destruct (String.eqb k' k) eqn:E; cbn; rewrite E; [reflexivity | exact IH].
Qed.

Lemma dict_get_set_other (k k' : string) (v : V) (d : list (string * V)) :
  k' <> k -> dict_get k' (dict_set k v d) = dict_get k' d.
Proof.
  intros N. induction d as [ | [k0 v0] d IH]; cbn.
  - destruct (String.eqb_spec k k'); [congruence | reflexivity].
  - destruct (String.eqb_spec k0 k) as [-> | N0]; cbn.
    + destruct (String.eqb_spec k k'); [congruence | reflexivity].
    + rewrite IH. reflexivity.
Qed.

Lemma dict_get_In_keys (k : string) (d : list (string * V)) :
  dict_get k d <> None <-> In k (keys d).
Proof.
  unfold keys.
  induction d as [ | [k0 v0] d IH]; cbn.
  - tauto.
  - destruct (String.eqb_spec k0 k) as [-> | N0].
    + split; [auto | discriminate].
    + rewrite IH. split; [auto | intros [H | H]; [congruence | exact H]].
Qed.

Lemma keys_dict_set_present (k : string) (v : V) (d : list (string * V)) :
  In k (keys d) -> keys (dict_set k v d) = keys d.
Proof.
  unfold keys.
  induction d as [ | [k0 v0] d IH]; cbn.
  - tauto.
  - destruct (String.eqb_spec k0 k) as [-> | N0]; cbn.
    + reflexivity.
    + intros [H | H]; [congruence | ]. rewrite IH by exact H. reflexivity.
Qed.

Lemma keys_dict_set_absent (k : string) (v : V) (d : list (string * V)) :
  ~ In k (keys d) -> keys (dict_set k v d) = (keys d ++ [k])%list.
Proof.
  unfold keys.
  induction d as [ | [k0 v0] d IH]; cbn.
  - reflexivity.
  - destruct (String.eqb_spec k0 k) as [-> | N0]; cbn.
    + tauto.
    + intros H. rewrite IH by tauto. reflexivity.
Qed.

Lemma dict_set_In (k : string) (v : V) (d : list (string * V)) (kv : string * V) :
  In kv (dict_set k v d) -> kv = (k, v) \/ In kv d.
Proof.
  induction d as [ | [k0 v0] d IH]; cbn.
  - intros [H | []]. left. symmetry. exact H.
  - destruct (String.eqb_spec k0 k) as [-> | N0]; cbn.
    + intros [H | H]; [left; symmetry; exact H | right; right; exact H].
    + intros [H | H]; [right; left; exact H | ].
      destruct (IH H); [left | right; right]; assumption.
Qed.

End Dictionaries.

Section Books.

Import AddressBook.

Lemma well_formed_empty : well_formed [].
Proof. split; constructor. Qed.

Lemma well_formed_add_record (record : Record_.t) (self : t) :
  well_formed self -> well_formed (add_record record self).
Proof.
  unfold well_formed, add_record. intros [Hk Hn]. split.
  - destruct (in_dec string_dec (Record_.name record) (keys self)) as [I | I].
    + rewrite keys_dict_set_present by exact I. exact Hk.
    + rewrite keys_dict_set_absent by exact I.
      apply NoDup_app; [exact Hk | repeat constructor; auto | ].
      intros k Hin [<- | []]. contradiction.
  - apply Forall_forall. intros kv Hin.
    apply dict_set_In in Hin. destruct Hin as [-> | Hin]; [reflexivity | ].
    rewrite Forall_forall in Hn. apply Hn. exact Hin.
Qed.

Lemma well_formed_names (self : t) :
  well_formed self -> NoDup (map Record_.name (values self)).
Proof.
  intros [Hk Hn]. replace (map Record_.name (values self)) with (keys self);
    [exact Hk | ].
  unfold keys, values. rewrite map_map. apply map_ext_in.
  rewrite Forall_forall in Hn. exact Hn.
Qed.

End Books.

(** ** Buckets *)

Section Buckets.

Import AddressBook.

Lemma keys_append_to (w nm k : string) (b : buckets) :
  In k (keys (append_to w nm b)) -> k = w \/ In k (keys b).
Proof.
  unfold keys.
  induction b as [ | [k0 names] b IH]; cbn.
  - intuition congruence.
  - destruct (String.eqb_spec k0 w) as [-> | N0]; cbn; intuition congruence.
Qed.

Lemma NoDup_keys_append_to (w nm : string) (b : buckets) :
  NoDup (keys b) -> NoDup (keys (append_to w nm b)).
Proof.
  unfold keys.
  induction b as [ | [k0 names] b IH]; cbn; intros H.
  - repeat constructor. auto.
  - inversion H as [ | ? ? Hnot Hrest]; subst.
    destruct (String.eqb_spec k0 w) as [-> | N0]; cbn.
    + constructor; assumption.
    + constructor; [ | apply IH; exact Hrest].
      intros Hin. apply (keys_append_to w nm k0 b) in Hin.
      destruct Hin as [E | Hin]; [congruence | exact (Hnot Hin)].
Qed.

Lemma names_of_append_to (w nm : string) (b : buckets) :
  Permutation (names_of (append_to w nm b)) (nm :: names_of b).
Proof.
  unfold names_of, values.
  induction b as [ | [k0 names] b IH]; cbn.
  - reflexivity.
  - destruct (String.eqb_spec k0 w) as [-> | N0]; cbn.
    + rewrite <- app_assoc. cbn. symmetry. apply Permutation_middle.
    + rewrite IH. symmetry. apply Permutation_middle.
Qed.

Lemma append_to_changes (w nm : string) (b : buckets) : append_to w nm b <> b.
Proof.
  intros E. pose proof (names_of_append_to w nm b) as P. rewrite E in P.
  apply Permutation_length in P. cbn in P. lia.
Qed.

Lemma In_names_of (nm : string) (b : buckets) :
  In nm (names_of b) <-> exists w names, In (w, names) b /\ In nm names.
Proof.
  unfold names_of, values. rewrite in_concat. split.
  - intros (names & Hin & Hnm). apply in_map_iff in Hin.
    destruct Hin as ([w names'] & E & Hin). cbn in E. subst.
    exists w, names. tauto.
  - intros (w & names & Hin & Hnm). exists names. split; [ | exact Hnm].
    apply in_map_iff. exists (w, names). tauto.
Qed.

Lemma NoDup_app_disjoint {A : Type} (l l' : list A) (a : A) :
  NoDup (l ++ l') -> In a l -> ~ In a l'.
Proof.
  intros H Hin Hin'. apply in_split in Hin. destruct Hin as (l1 & l2 & ->).
  rewrite <- app_assoc in H. cbn in H. apply NoDup_remove_2 in H.
  apply H. rewrite app_assoc. apply in_or_app. right. exact Hin'.
Qed.

(** When no name is listed twice overall and no key occurs twice, a listed
    name has one bucket and occurs once in it. *)
Lemma one_bucket_once (nm : string) (b : buckets) :
  NoDup (keys b) -> NoDup (names_of b) -> In nm (names_of b) ->
  exists w names,
    In (w, names) b /\ count_occ string_dec names nm = 1%nat
    /\ forall w' names', In (w', names') b -> In nm names' -> w' = w.
Proof.
  induction b as [ | [k0 l] b IH]; intros Hk Hn Hin.
  - contradiction.
  - unfold names_of, values in Hn, Hin. cbn in Hk, Hn, Hin.
    fold (values b) in Hn, Hin. fold (names_of b) in Hn, Hin.
    inversion Hk as [ | ? ? Hnot Hrest]; subst.
    pose proof (NoDup_app_remove_l _ _ Hn) as Hn2.
    pose proof (NoDup_app_remove_r _ _ Hn) as Hn1.
    apply in_app_or in Hin. destruct Hin as [Hin | Hin].
    + exists k0, l. split; [left; reflexivity | ]. split.
      * apply NoDup_count_occ'; assumption.
      * intros w' names' [E | Hin'] Hnm; [congruence | ].
        exfalso. apply (NoDup_app_disjoint _ _ nm Hn Hin).
        apply In_names_of. exists w', names'. tauto.
    + destruct (IH Hrest Hn2 Hin) as (w & names & Hw & Hc & Hu).
      exists w, names. split; [right; exact Hw | ]. split; [exact Hc | ].
      intros w' names' [E | Hin'] Hnm.
      * injection E as <- <-. exfalso.
        apply (NoDup_app_disjoint _ _ nm Hn Hnm). exact Hin.
      * eapply Hu; eassumption.
Qed.

End Buckets.

(** ** The scheduler *)

Section Scheduler.

Import Date AddressBook.

Lemma celebrated_not_weekend (w : string) : is_weekend (celebrated w) = false.
Proof.
  unfold celebrated. destruct (is_weekend w) eqn:E; [reflexivity | exact E].
Qed.

Lemma place_cases (today anchored : date) (nm : string) (b b' : buckets) :
  place today anchored nm b = Ok b' ->
  b' = b \/ exists w, is_weekend w = false /\ b' = append_to w nm b.
Proof.
  unfold place. cbv zeta.
  destruct (sub_days anchored today <? 7).
  - destruct (add_days today (sub_days anchored today)) as [shifted | e];
      cbn [bind]; [ | discriminate].
    intros E. injection E as <-. right.
    exists (celebrated (strftime_A shifted)).
    split; [apply celebrated_not_weekend | reflexivity].
  - intros E. injection E as <-. left. reflexivity.
Qed.

Lemma visit_cases (today : date) (b b' : buckets) (record : Record_.t) :
  visit today b record = Ok b' ->
  b' = b
  \/ exists w, is_weekend w = false /\ b' = append_to w (Record_.name record) b.
Proof.
  unfold visit. cbv zeta.
  destruct (Record_.birthday record) as [birthday | ]; [ | discriminate].
  destruct (String.eqb birthday "").
  - intros E. injection E as <-. left. reflexivity.
  - destruct (Strptime.strptime_dmY birthday) as [parsed | e]; cbn [bind];
      [ | discriminate].
    destruct (anchor today parsed) as [anchored | e]; cbn [bind];
      [ | discriminate].
    apply place_cases.
Qed.

(** A record whose birthday was read and anchored is visited by [place]. *)
Lemma visit_anchored (today parsed anchored : date) (b : buckets)
    (record : Record_.t) (birthday : string) :
  Record_.birthday record = Some birthday ->
  Strptime.strptime_dmY birthday = Ok parsed ->
  anchor today parsed = Ok anchored ->
  visit today b record = place today anchored (Record_.name record) b.
Proof.
  intros Hb Hp Ha. unfold visit. cbv zeta. rewrite Hb.
  destruct (String.eqb_spec birthday "") as [-> | N].
  - rewrite strptime_empty in Hp. discriminate.
  - rewrite Hp. cbn [bind]. rewrite Ha. reflexivity.
Qed.

Lemma visit_no_birthday (today : date) (b : buckets) (record : Record_.t) :
  Record_.birthday record = None ->
  visit today b record
  = Err (AttributeError "'NoneType' object has no attribute 'value'").
Proof. intros H. unfold visit. cbv zeta. rewrite H. reflexivity. Qed.

Lemma loop_no_weekend_keys (today : date) (records : list Record_.t) :
  forall b b',
    loop today records b = Ok b' ->
    Forall (fun k => is_weekend k = false) (keys b) ->
    Forall (fun k => is_weekend k = false) (keys b').
Proof.
  induction records as [ | record rest IH]; cbn [loop]; intros b b' E Hb.
  - injection E as <-. exact Hb.
  - destruct (visit today b record) as [b1 | e] eqn:V; cbn [bind] in E;
      [ | discriminate].
    apply (IH b1 b' E).
    apply visit_cases in V. destruct V as [-> | (w & Hw & ->)]; [exact Hb | ].
    rewrite Forall_forall in *. intros k Hk.
    apply keys_append_to in Hk. destruct Hk as [-> | Hk]; auto.
Qed.

Lemma loop_names (today : date) (records : list Record_.t) :
  forall b b',
    loop today records b = Ok b' ->
    NoDup (keys b) ->
    NoDup (names_of b ++ map Record_.name records) ->
    NoDup (keys b') /\ NoDup (names_of b')
    /\ forall nm, In nm (names_of b') ->
         In nm (names_of b) \/ In nm (map Record_.name records).
Proof.
  induction records as [ | record rest IH]; cbn [loop map]; intros b b' E Hk Hn.
  - injection E as <-. rewrite app_nil_r in Hn. auto.
  - destruct (visit today b record) as [b1 | e] eqn:V; cbn [bind] in E;
      [ | discriminate].
    apply visit_cases in V. destruct V as [-> | (w & Hw & ->)].
    + destruct (IH b b' E Hk (NoDup_remove_1 _ _ _ Hn)) as (H1 & H2 & H3).
      split; [exact H1 | ]. split; [exact H2 | ].
      intros nm Hnm. destruct (H3 nm Hnm); [left | right; right]; assumption.
    + assert (P : Permutation
                    (names_of (append_to w (Record_.name record) b)
                     ++ map Record_.name rest)
                    (names_of b ++ Record_.name record :: map Record_.name rest)).
      { rewrite names_of_append_to. cbn. apply Permutation_middle. }
      destruct (IH _ b' E (NoDup_keys_append_to _ _ _ Hk)) as (H1 & H2 & H3).
      { eapply Permutation_NoDup; [symmetry; exact P | exact Hn]. }
      split; [exact H1 | ]. split; [exact H2 | ].
      intros nm Hnm. destruct (H3 nm Hnm) as [H | H].
      * apply (Permutation_in _ (names_of_append_to w _ b)) in H.
        destruct H as [<- | H]; [right; left; reflexivity | left; exact H].
      * right; right; exact H.
Qed.

End Scheduler.

(** ** Records *)

Section Records.

Import Record_.

Lemma add_phone_accepts (p : string) (self : t) :
  Phone.validate p = true ->
  add_phone p self = (Ok tt, set_phones self (phones self ++ [p])%list).
Proof. intros H. unfold add_phone, Phone.new. rewrite H. reflexivity. Qed.

Lemma add_phone_rejects (p : string) (self : t) :
  Phone.validate p = false ->
  add_phone p self = (Err (ValueError "Invalid phone number format"), self).
Proof. intros H. unfold add_phone, Phone.new. rewrite H. reflexivity. Qed.

Lemma add_phone_keeps_valid (p : string) (self : t) :
  phones_valid self -> phones_valid (snd (add_phone p self)).
Proof.
  unfold phones_valid. intros H.
  destruct (Phone.validate p) eqn:E.
  - rewrite add_phone_accepts by exact E. cbn.
    apply Forall_app. split; [exact H | ]. repeat constructor. exact E.
  - rewrite add_phone_rejects by exact E. exact H.
Qed.

Lemma remove_phone_keeps_valid (p : string) (self : t) :
  phones_valid self -> phones_valid (snd (remove_phone p self)).
Proof.
  unfold phones_valid, remove_phone. cbn. intros H.
  rewrite Forall_forall in *. intros q Hq. apply filter_In in Hq.
  apply H. tauto.
Qed.

Lemma init_valid (nm : string) : phones_valid (init nm).
Proof. constructor. Qed.

End Records.

(** * The claims *)

Section Claims.

Import Date AddressBook.

(** Every book that holds a record without a birthday makes the loop
    raise, whatever the records before it do. *)
Lemma loop_raises_without_birthday (today : date) (records : list Record_.t) :
  (exists record, In record records /\ Record_.birthday record = None) ->
  forall b, exists e, loop today records b = Err e.
Proof.
  induction records as [ | r rest IH]; intros (record & Hin & Hnone) b.
  - contradiction.
  - cbn [loop]. destruct (visit today b r) as [b1 | e] eqn:V; cbn [bind].
    + destruct Hin as [-> | Hin].
      * rewrite visit_no_birthday in V by exact Hnone. discriminate.
      * apply IH. exists record. tauto.
    + exists e. reflexivity.
Qed.

(** C1 (the code departs from the claim).  The book that the command
    [add Alice 1234567890] builds holds one record, without a birthday; on
    it the scheduler does not skip the record but raises [AttributeError],
    which the decorator of [show_birthdays] lets through. *)
Theorem C1_record_without_birthday_raises :
  let book := command_add "Alice" "1234567890" [] in
  let now := mkdate 2025 11 4 in
  find "Alice" book = Some (Record_.mk "Alice" ["1234567890"] None)
  /\ get_birthdays_per_week now book
     = Err (AttributeError "'NoneType' object has no attribute 'value'")
  /\ show_birthdays now book
     = Err (AttributeError "'NoneType' object has no attribute 'value'").
Proof. cbv zeta. repeat split; vm_compute; reflexivity. Qed.

(** C2, as the claim has it, fails on a Monday: 2025-11-03 is a Monday and
    its window starts on that very day, not seven days later. *)
Lemma C2_monday_counterexample :
  let today := mkdate 2025 11 3 in
  weekday today = 0
  /\ next_monday today = Ok today
  /\ next_monday today <> add_days today 7.
Proof. cbv zeta. repeat split; vm_compute; [reflexivity .. | discriminate]. Qed.

(** C2 (amended).  The window starts [(7 - weekday) mod 7] days after
    today, with Monday as weekday 0; that is today itself when today is a
    Monday and the next Monday otherwise, and in every case a Monday at
    most six days ahead. *)
Theorem C2_window_start (now : date) :
  valid now = true ->
  next_monday now = add_days now ((7 - weekday now) mod 7)
  /\ 0 <= weekday now <= 6
  /\ (weekday now = 0 -> next_monday now = Ok now)
  /\ (weekday now <> 0 -> next_monday now = add_days now (7 - weekday now))
  /\ (forall today, next_monday now = Ok today ->
        weekday today = 0
        /\ toordinal now <= toordinal today <= toordinal now + 6).
Proof.
  intros Hv. pose proof (weekday_range now) as Hw.
  split; [reflexivity | ]. split; [exact Hw | ]. split; [ | split].
  - intros E. unfold next_monday. rewrite E. change ((7 - 0) mod 7) with 0.
    apply add_days_0. exact Hv.
  - intros N. unfold next_monday. f_equal. apply Z.mod_small. lia.
  - intros today E. apply next_monday_inv in E. lia.
Qed.

Lemma C2_window_start_witness :
  next_monday (mkdate 2025 11 3) = Ok (mkdate 2025 11 3).
Proof.
  apply (C2_window_start (mkdate 2025 11 3)); vm_compute; reflexivity.
Defined.

(** C3 (the code departs from the claim).  The birthday 29.02.2000 is a
    valid calendar date, accepted by the [Birthday] constructor, and the
    scheduler raises [ValueError] on it when the window starts in a year
    that is not a leap year. *)
Theorem C3_leap_day_raises :
  let book :=
    snd (command_add_birthday "Eve" "29.02.2000"
           (command_add "Eve" "1234567890" [])) in
  let now := mkdate 2025 11 4 in
  Birthday.validate "29.02.2000" = true
  /\ find "Eve" book
     = Some (Record_.mk "Eve" ["1234567890"] (Some "29.02.2000"))
  /\ next_monday now = Ok (mkdate 2025 11 10)
  /\ replace_year (mkdate 2000 2 29) 2025
     = Err (ValueError "day is out of range for month")
  /\ get_birthdays_per_week now book
     = Err (ValueError "day is out of range for month").
Proof. cbv zeta. repeat split; vm_compute; reflexivity. Qed.

(** C4 (the code departs from the claim).  [edit_phone] assigns the new
    value without the check of the [Phone] constructor: on a record whose
    only phone is valid it stores [abc], which [add_phone] rejects. *)
Theorem C4_edit_phone_stores_invalid :
  let record := snd (Record_.add_phone "1234567890" (Record_.init "Alice")) in
  phones_valid record
  /\ Record_.edit_phone "1234567890" "abc" record
     = (Ok tt, Record_.mk "Alice" ["abc"] None)
  /\ Phone.validate "abc" = false
  /\ Record_.add_phone "abc" record
     = (Err (ValueError "Invalid phone number format"), record)
  /\ ~ phones_valid (snd (Record_.edit_phone "1234567890" "abc" record)).
Proof.
  cbv zeta. split; [ | split; [ | split; [ | split]]].
  - apply add_phone_keeps_valid, init_valid.
  - vm_compute; reflexivity.
  - vm_compute; reflexivity.
  - vm_compute; reflexivity.
  - intros H. inversion H as [ | ? ? Habc]; subst. vm_compute in Habc.
    discriminate.
Qed.

(** C6 (the code departs from the claim).  With the window starting on
    2024-03-04, the birthday 29.02.2000 moved to the year of the window
    start is 2024-02-29, which is before the window start; moving it on to
    the following year raises [ValueError], so no date of 2025 is reached
    and no bucket is decided: the scheduler raises. *)
Theorem C6_leap_day_is_not_advanced :
  let book :=
    snd (command_add_birthday "Eve" "29.02.2000"
           (command_add "Eve" "1234567890" [])) in
  let now := mkdate 2024 2 28 in
  let today := mkdate 2024 3 4 in
  next_monday now = Ok today
  /\ find "Eve" book
     = Some (Record_.mk "Eve" ["1234567890"] (Some "29.02.2000"))
  /\ Strptime.strptime_dmY "29.02.2000" = Ok (mkdate 2000 2 29)
  /\ replace_year (mkdate 2000 2 29) (year today) = Ok (mkdate 2024 2 29)
  /\ lt (mkdate 2024 2 29) today = true
  /\ replace_year (mkdate 2024 2 29) (year today + 1)
     = Err (ValueError "day is out of range for month")
  /\ anchor today (mkdate 2000 2 29)
     = Err (ValueError "day is out of range for month")
  /\ get_birthdays_per_week now book
     = Err (ValueError "day is out of range for month").
Proof. cbv zeta. repeat split; vm_compute; reflexivity. Qed.

(** C8.  On a book in which every record is stored under its own name, the
    returned mapping lists no name twice: a name that occurs in it occurs
    in one bucket only, and once in that bucket. *)
Theorem C8_each_name_once
    (now : date) (self : t) (birthdays : buckets) :
  well_formed self ->
  get_birthdays_per_week now self = Ok birthdays ->
  NoDup (keys birthdays)
  /\ NoDup (names_of birthdays)
  /\ forall nm, In nm (names_of birthdays) ->
       exists w names,
         In (w, names) birthdays
         /\ count_occ string_dec names nm = 1%nat
         /\ forall w' names',
              In (w', names') birthdays -> In nm names' -> w' = w.
Proof.
  intros Hwf E. unfold get_birthdays_per_week in E.
  destruct (next_monday now) as [today | e]; cbn [bind] in E; [ | discriminate].
  apply loop_names in E.
  - destruct E as (Hk & Hn & _). split; [exact Hk | ]. split; [exact Hn | ].
    intros nm Hin. apply one_bucket_once; assumption.
  - constructor.
  - cbn. apply well_formed_names. exact Hwf.
Qed.

Lemma C8_each_name_once_witness :
  NoDup (names_of [("Wednesday", ["Alice"]); ("Monday", ["Bob"])]).
Proof.
  refine (proj1 (proj2
    (C8_each_name_once (mkdate 2025 11 4)
       [("Alice", Record_.mk "Alice" ["1234567890"] (Some "12.11.1990"));
        ("Bob", Record_.mk "Bob" ["0123456789"] (Some "15.11.2000"))]
       [("Wednesday", ["Alice"]); ("Monday", ["Bob"])] _ _))).
  - split.
    + repeat constructor; cbn; intuition discriminate.
    + repeat constructor.
  - vm_compute; reflexivity.
Defined.

(** C9.  [add_birthday] on a record that has a birthday raises and leaves
    the record, its birthday included, as it was; on a record without one,
    a text that the [Birthday] constructor accepts, and so every valid
    date written DD.MM.YYYY, is the birthday the record holds afterwards,
    its name and phones being untouched. *)
Theorem C9_birthday_set_once (self : Record_.t) (b : string) :
  (forall old,
     Record_.birthday self = Some old ->
     Record_.add_birthday b self
     = (Err (ValueError "Birthday already exists for this contact"), self)
     /\ Record_.birthday (snd (Record_.add_birthday b self)) = Some old)
  /\ (Record_.birthday self = None ->
      Birthday.validate b = true ->
      fst (Record_.add_birthday b self) = Ok tt
      /\ Record_.birthday (snd (Record_.add_birthday b self)) = Some b
      /\ Record_.name (snd (Record_.add_birthday b self)) = Record_.name self
      /\ Record_.phones (snd (Record_.add_birthday b self))
         = Record_.phones self)
  /\ (Record_.birthday self = None ->
      forall d, valid d = true -> b = Strptime.format_dmY d ->
      fst (Record_.add_birthday b self) = Ok tt
      /\ Record_.birthday (snd (Record_.add_birthday b self)) = Some b
      /\ Record_.name (snd (Record_.add_birthday b self)) = Record_.name self
      /\ Record_.phones (snd (Record_.add_birthday b self))
         = Record_.phones self).
Proof.
  assert (Hset : Record_.birthday self = None ->
                 Birthday.validate b = true ->
                 fst (Record_.add_birthday b self) = Ok tt
                 /\ Record_.birthday (snd (Record_.add_birthday b self))
                    = Some b
                 /\ Record_.name (snd (Record_.add_birthday b self))
                    = Record_.name self
                 /\ Record_.phones (snd (Record_.add_birthday b self))
                    = Record_.phones self).
  { intros Hn Hv. unfold Record_.add_birthday, Birthday.new.
    rewrite Hn, Hv. cbn. repeat split; reflexivity. }
  split; [ | split].
  - intros old Ho. unfold Record_.add_birthday. rewrite Ho. cbn.
    split; [reflexivity | exact Ho].
  - exact Hset.
  - intros Hn d Hd ->. apply Hset; [exact Hn | ].
    unfold Birthday.validate. rewrite strptime_format by exact Hd. reflexivity.
Qed.

Lemma C9_birthday_set_once_witness :
  Record_.birthday
    (snd (Record_.add_birthday "12.11.1990" (Record_.mk "Alice" [] None)))
  = Some "12.11.1990"
  /\ Record_.add_birthday "01.01.2001"
       (Record_.mk "Alice" [] (Some "12.11.1990"))
     = (Err (ValueError "Birthday already exists for this contact"),
        Record_.mk "Alice" [] (Some "12.11.1990")).
Proof.
  split.
  - refine (proj1 (proj2 (proj1 (proj2
      (C9_birthday_set_once (Record_.mk "Alice" [] None) "12.11.1990"))
      _ _))).
    + reflexivity.
    + vm_compute. reflexivity.
  - refine (proj1 (proj1
      (C9_birthday_set_once (Record_.mk "Alice" [] (Some "12.11.1990"))
         "01.01.2001") "12.11.1990" _)).
    reflexivity.
Defined.

(** C10.  [add_record] with a record whose name is already a key raises
    nothing and stores the new record in place of the old one, whatever
    phones and birthday the old one had; the keys and every other entry
    stay as they were. *)
Theorem C10_add_record_replaces
    (self : t) (record old : Record_.t) :
  find (Record_.name record) self = Some old ->
  find (Record_.name record) (add_record record self) = Some record
  /\ keys (add_record record self) = keys self
  /\ forall nm, nm <> Record_.name record ->
       find nm (add_record record self) = find nm self.
Proof.
  intros Hold. unfold find, add_record in *. split; [ | split].
  - apply dict_get_set_same.
  - apply keys_dict_set_present. apply dict_get_In_keys. congruence.
  - intros nm N. apply dict_get_set_other. exact N.
Qed.

Lemma C10_add_record_replaces_witness :
  find "Alice"
    (add_record (Record_.mk "Alice" [] None)
       [("Alice", Record_.mk "Alice" ["1234567890"] (Some "12.11.1990"))])
  = Some (Record_.mk "Alice" [] None).
Proof.
  refine (proj1
    (C10_add_record_replaces
       [("Alice", Record_.mk "Alice" ["1234567890"] (Some "12.11.1990"))]
       (Record_.mk "Alice" [] None)
       (Record_.mk "Alice" ["1234567890"] (Some "12.11.1990")) _)).
  reflexivity.
Defined.

End Claims.

(** * Further properties *)

(** ** Phones of a record *)

Section Phones.

Import Record_.

Lemma first_index_spec (p : string) (ps : list string) :
  match first_index p ps with
  | Some i =>
      nth_error ps i = Some p
      /\ forall j q, (j < i)%nat -> nth_error ps j = Some q -> q <> p
  | None => ~ In p ps
  end.
Proof.
  induction ps as [ | q ps IH]; cbn.
  - tauto.
  - destruct (String.eqb_spec q p) as [-> | N].
    + split; [reflexivity | ]. intros j q' Hj. lia.
    + destruct (first_index p ps) as [i | ]; cbn.
      * destruct IH as [Hi Hbefore]. split; [exact Hi | ].
        intros [ | j] q' Hj E; cbn in E.
        -- injection E as <-. exact N.
        -- apply (Hbefore j q'); [lia | exact E].
      * intros [E | Hin]; [exact (N E) | exact (IH Hin)].
Qed.

(** X1.  [find_phone] returns the position of the first phone with the
    given value, and [None] exactly when no phone has it. *)
Theorem find_phone_first_match (p : string) (self : t) :
  match find_phone p self with
  | Some i =>
      nth_error (phones self) i = Some p
      /\ forall j q, (j < i)%nat -> nth_error (phones self) j = Some q -> q <> p
  | None => ~ In p (phones self)
  end.
Proof. unfold find_phone. apply first_index_spec. Qed.

Lemma find_phone_first_match_witness :
  nth_error ["1111111111"; "2222222222"; "2222222222"] 1 = Some "2222222222"
  /\ forall j q,
       (j < 1)%nat ->
       nth_error ["1111111111"; "2222222222"; "2222222222"] j = Some q ->
       q <> "2222222222".
Proof.
  exact (find_phone_first_match "2222222222"
           (mk "Alice" ["1111111111"; "2222222222"; "2222222222"] None)).
Defined.

Lemma filter_is_remove (p : string) (ps : list string) :
  filter (fun q => negb (String.eqb q p)) ps = remove string_dec p ps.
Proof.
  induction ps as [ | q ps IH]; cbn; [reflexivity | ].
  destruct (String.eqb_spec q p) as [-> | N]; cbn.
  - destruct (string_dec p p) as [_ | N']; [exact IH | contradiction].
  - destruct (string_dec p q) as [E | _]; [congruence | ].
    rewrite IH. reflexivity.
Qed.

(** X2.  [remove_phone] never raises; it deletes every occurrence of the
    number and nothing else, and leaves a record that does not hold the
    number exactly as it was. *)
Theorem remove_phone_deletes_all (p : string) (self : t) :
  fst (remove_phone p self) = Ok tt
  /\ phones (snd (remove_phone p self)) = remove string_dec p (phones self)
  /\ ~ In p (phones (snd (remove_phone p self)))
  /\ name (snd (remove_phone p self)) = name self
  /\ birthday (snd (remove_phone p self)) = birthday self
  /\ (~ In p (phones self) -> snd (remove_phone p self) = self).
Proof.
  unfold remove_phone. cbn. rewrite filter_is_remove.
  split; [reflexivity | ]. split; [reflexivity | ].
  split; [apply remove_In | ]. split; [reflexivity | ].
  split; [reflexivity | ].
  intros H. rewrite notin_remove by exact H. destruct self; reflexivity.
Qed.

Lemma remove_phone_deletes_all_witness :
  snd (remove_phone "5" (mk "Alice" ["1234567890"] None))
  = mk "Alice" ["1234567890"] None.
Proof.
  refine (proj2 (proj2 (proj2 (proj2 (proj2
    (remove_phone_deletes_all "5" (mk "Alice" ["1234567890"] None)))))) _).
  cbn. intros [H | []]. discriminate H.
Defined.

Lemma set_value_first_index (p v : string) (ps : list string) (i : nat) :
  first_index p ps = Some i ->
  exists before after,
    ps = (before ++ p :: after)%list /\ ~ In p before
    /\ set_value i v ps = (before ++ v :: after)%list.
Proof.
  revert i. induction ps as [ | q ps IH]; cbn; intros i E.
  - discriminate.
  - destruct (String.eqb_spec q p) as [-> | N].
    + injection E as <-. exists [], ps. cbn. tauto.
    + destruct (first_index p ps) as [j | ]; cbn in E; [ | discriminate].
      injection E as <-.
      destruct (IH j eq_refl) as (before & after & -> & Hb & Hs).
      exists (q :: before), after. cbn. rewrite Hs.
      split; [reflexivity | ]. split; [ | reflexivity].
      intros [H | H]; [exact (N H) | exact (Hb H)].
Qed.

(** X3.  [edit_phone] replaces the first occurrence of the old number and
    only that one, whatever the new text is; when no phone has the old
    number it raises [AttributeError] and the record is unchanged. *)
Theorem edit_phone_first_occurrence (old_number new_number : string) (self : t) :
  (In old_number (phones self) ->
   exists before after,
     phones self = (before ++ old_number :: after)%list
     /\ ~ In old_number before
     /\ edit_phone old_number new_number self
        = (Ok tt, set_phones self (before ++ new_number :: after)%list))
  /\ (~ In old_number (phones self) ->
      edit_phone old_number new_number self
      = (Err (AttributeError "'NoneType' object has no attribute 'value'"),
         self)).
Proof.
  unfold edit_phone, find_phone.
  pose proof (first_index_spec old_number (phones self)) as S.
  destruct (first_index old_number (phones self)) as [i | ] eqn:E.
  - split.
    + intros _.
      destruct (set_value_first_index _ new_number _ _ E)
        as (before & after & Hp & Hb & Hs).
      exists before, after. rewrite Hs. tauto.
    + intros H. destruct S as [S _]. apply nth_error_In in S. contradiction.
  - split; [intros H; contradiction | reflexivity].
Qed.

Lemma edit_phone_first_occurrence_witness :
  edit_phone "5" "1234567890" (mk "Al" ["0000000000"] None)
  = (Err (AttributeError "'NoneType' object has no attribute 'value'"),
     mk "Al" ["0000000000"] None).
Proof.
  refine (proj2 (edit_phone_first_occurrence "5" "1234567890"
                   (mk "Al" ["0000000000"] None)) _).
  cbn. intros [H | []]. discriminate H.
Defined.

Lemma apply_op_keeps (op : phone_op) (self : t) :
  phones_valid self ->
  phones_valid (apply_op self op)
  /\ name (apply_op self op) = name self
  /\ birthday (apply_op self op) = birthday self.
Proof.
  intros H. destruct op as [p | p]; cbn [apply_op].
  - split; [apply add_phone_keeps_valid; exact H | ].
    unfold add_phone. destruct (Phone.new p); cbn; tauto.
  - split; [apply remove_phone_keeps_valid; exact H | ].
    cbn. tauto.
Qed.

(** X4.  Whatever calls of [add_phone] and [remove_phone] are made on a
    record, failed ones included, every phone it holds passes the check of
    the [Phone] constructor, and its name and birthday are untouched. *)
Theorem phones_stay_valid (ops : list phone_op) (self : t) :
  phones_valid self ->
  phones_valid (apply_ops ops self)
  /\ name (apply_ops ops self) = name self
  /\ birthday (apply_ops ops self) = birthday self.
Proof.
  unfold apply_ops. revert self.
  induction ops as [ | op ops IH]; intros self H; cbn [fold_left].
  - tauto.
  - destruct (apply_op_keeps op self H) as (H1 & H2 & H3).
    destruct (IH _ H1) as (I1 & I2 & I3).
    split; [exact I1 | ]. split; congruence.
Qed.

Lemma phones_stay_valid_witness :
  phones_valid
    (apply_ops [Add_phone "1234567890"; Add_phone "abc";
                Remove_phone "1234567890"; Add_phone "0987654321"]
       (init "Alice")).
Proof.
  refine (proj1 (phones_stay_valid _ (init "Alice") _)).
  apply init_valid.
Defined.

End Phones.

(** ** Entries of the book *)

Section Entries.

Import AddressBook.

Lemma dict_set_absent {V : Type} (k : string) (v : V) (d : list (string * V)) :
  ~ In k (keys d) -> dict_set k v d = (d ++ [(k, v)])%list.
Proof.
  unfold keys. induction d as [ | [k0 v0] d IH]; cbn; intros H.
  - reflexivity.
  - destruct (String.eqb_spec k0 k) as [-> | N]; [tauto | ].
    rewrite IH by tauto. reflexivity.
Qed.

Lemma dict_get_None {V : Type} (k : string) (d : list (string * V)) :
  dict_get k d = None <-> ~ In k (keys d).
Proof.
  rewrite <- dict_get_In_keys. destruct (dict_get k d); split; intros H;
    try congruence; try discriminate. exfalso. apply H. discriminate.
Qed.

Lemma dict_get_In {V : Type} (k : string) (v : V) (d : list (string * V)) :
  dict_get k d = Some v -> In (k, v) d.
Proof.
  induction d as [ | [k0 v0] d IH]; cbn.
  - discriminate.
  - destruct (String.eqb_spec k0 k) as [-> | N].
    + intros E. injection E as <-. left. reflexivity.
    + intros E. right. apply IH. exact E.
Qed.

Lemma dict_del_absent {V : Type} (k : string) (d : list (string * V)) :
  ~ In k (keys d) -> dict_del k d = d.
Proof.
  unfold keys. induction d as [ | [k0 v0] d IH]; cbn; intros H.
  - reflexivity.
  - destruct (String.eqb_spec k0 k) as [-> | N]; [tauto | ].
    rewrite IH by tauto. reflexivity.
Qed.

Lemma dict_del_app_last {V : Type} (k : string) (v : V)
    (d : list (string * V)) :
  ~ In k (keys d) -> dict_del k (d ++ [(k, v)]) = d.
Proof.
  unfold keys. induction d as [ | [k0 v0] d IH]; cbn; intros H.
  - rewrite String.eqb_refl. reflexivity.
  - destruct (String.eqb_spec k0 k) as [-> | N]; [tauto | ].
    rewrite IH by tauto. reflexivity.
Qed.

Lemma dict_del_In {V : Type} (k : string) (d : list (string * V))
    (kv : string * V) :
  In kv (dict_del k d) -> In kv d.
Proof.
  induction d as [ | [k0 v0] d IH]; cbn.
  - tauto.
  - destruct (String.eqb k0 k); cbn; [tauto | ].
    intros [H | H]; [left; exact H | right; apply IH; exact H].
Qed.

Lemma keys_dict_del_incl {V : Type} (k k' : string) (d : list (string * V)) :
  In k' (keys (dict_del k d)) -> In k' (keys d).
Proof.
  unfold keys. rewrite !in_map_iff. intros (kv & E & H).
  exists kv. split; [exact E | ]. eapply dict_del_In. exact H.
Qed.

Lemma NoDup_keys_dict_del {V : Type} (k : string) (d : list (string * V)) :
  NoDup (keys d) -> NoDup (keys (dict_del k d)).
Proof.
  induction d as [ | [k0 v0] d IH]; cbn; intros H.
  - constructor.
  - inversion H as [ | ? ? Hnot Hrest]; subst.
    destruct (String.eqb k0 k); cbn; [exact Hrest | ].
    constructor; [ | apply IH; exact Hrest].
    intros Hin. apply Hnot. eapply keys_dict_del_incl. exact Hin.
Qed.

Lemma dict_get_del_same {V : Type} (k : string) (d : list (string * V)) :
  NoDup (keys d) -> dict_get k (dict_del k d) = None.
Proof.
  induction d as [ | [k0 v0] d IH]; cbn; intros H.
  - reflexivity.
  - inversion H as [ | ? ? Hnot Hrest]; subst.
    destruct (String.eqb_spec k0 k) as [-> | N]; cbn.
    + apply dict_get_None. exact Hnot.
    + destruct (String.eqb_spec k0 k); [contradiction | ].
      apply IH. exact Hrest.
Qed.

Lemma dict_get_del_other {V : Type} (k k' : string) (d : list (string * V)) :
  k' <> k -> dict_get k' (dict_del k d) = dict_get k' d.
Proof.
  intros N. induction d as [ | [k0 v0] d IH]; cbn.
  - reflexivity.
  - destruct (String.eqb_spec k0 k) as [-> | N0]; cbn.
    + destruct (String.eqb_spec k k'); [congruence | reflexivity].
    + rewrite IH. reflexivity.
Qed.

Lemma add_record_appends (record : Record_.t) (self : t) :
  find (Record_.name record) self = None ->
  add_record record self = (self ++ [(Record_.name record, record)])%list.
Proof.
  unfold find, add_record. intros H. apply dict_get_None in H.
  apply dict_set_absent. exact H.
Qed.

(** X5.  A record whose name is not yet a key goes to the end of the book:
    the entries before it are untouched and the name now finds it. *)
Theorem add_record_new_name (record : Record_.t) (self : t) :
  find (Record_.name record) self = None ->
  add_record record self = (self ++ [(Record_.name record, record)])%list
  /\ find (Record_.name record) (add_record record self) = Some record.
Proof.
  intros H. split; [apply add_record_appends; exact H | ].
  unfold find, add_record. apply dict_get_set_same.
Qed.

Lemma add_record_new_name_witness :
  add_record (Record_.init "Bob") [("Alice", Record_.init "Alice")]
  = [("Alice", Record_.init "Alice"); ("Bob", Record_.init "Bob")].
Proof.
  refine (proj1 (add_record_new_name (Record_.init "Bob")
                   [("Alice", Record_.init "Alice")] _)).
  reflexivity.
Defined.

(** X6.  [delete] of a name that is not a key raises [KeyError] and leaves
    the book as it was; [delete] of a key removes that entry and no other:
    the name is no longer found and every other name finds what it found
    before. *)
Theorem delete_removes_entry (nm : string) (self : t) :
  (find nm self = None -> delete nm self = (Err (KeyError nm), self))
  /\ (forall record,
        NoDup (keys self) -> find nm self = Some record ->
        fst (delete nm self) = Ok tt
        /\ find nm (snd (delete nm self)) = None
        /\ (forall nm', nm' <> nm ->
              find nm' (snd (delete nm self)) = find nm' self)
        /\ NoDup (keys (snd (delete nm self)))).
Proof.
  unfold find, delete. split.
  - intros ->. reflexivity.
  - intros record Hk ->. cbn.
    split; [reflexivity | ]. split; [apply dict_get_del_same; exact Hk | ].
    split; [ | apply NoDup_keys_dict_del; exact Hk].
    intros nm' N. apply dict_get_del_other. exact N.
Qed.

Lemma delete_removes_entry_witness :
  delete "Bob" [("Alice", Record_.init "Alice")]
  = (Err (KeyError "Bob"), [("Alice", Record_.init "Alice")]).
Proof.
  refine (proj1 (delete_removes_entry "Bob"
                   [("Alice", Record_.init "Alice")]) _).
  reflexivity.
Defined.

(** X7.  Deleting a record that was just added under a new name gives the
    book back as it was. *)
Theorem delete_after_add_record (record : Record_.t) (self : t) :
  find (Record_.name record) self = None ->
  delete (Record_.name record) (add_record record self) = (Ok tt, self).
Proof.
  intros H. unfold delete.
  assert (F : dict_get (Record_.name record) (add_record record self)
              = Some record) by (unfold add_record; apply dict_get_set_same).
  rewrite F. rewrite (add_record_appends record self H).
  rewrite dict_del_app_last; [reflexivity | ].
  apply dict_get_None. exact H.
Qed.

Lemma delete_after_add_record_witness :
  delete "Bob"
    (add_record (Record_.init "Bob") [("Alice", Record_.init "Alice")])
  = (Ok tt, [("Alice", Record_.init "Alice")]).
Proof.
  refine (delete_after_add_record (Record_.init "Bob")
            [("Alice", Record_.init "Alice")] _).
  reflexivity.
Defined.

Lemma well_formed_delete (nm : string) (self : t) :
  well_formed self -> well_formed (snd (delete nm self)).
Proof.
  intros [Hk Hn]. unfold delete.
  destruct (dict_get nm self); cbn; [ | split; assumption].
  split; [apply NoDup_keys_dict_del; exact Hk | ].
  rewrite Forall_forall in *. intros kv Hin. apply Hn.
  eapply dict_del_In. exact Hin.
Qed.

(** X8.  Every book built from the empty one by calls of [add_record] and
    [delete], failed ones included, has no key twice and stores every
    record under the name the record itself carries; so a name finds only
    a record of that name. *)
Theorem book_stays_well_formed (ops : list book_op) :
  let book := fold_left apply_book_op ops [] in
  well_formed book
  /\ forall nm record, find nm book = Some record -> Record_.name record = nm.
Proof.
  cbv zeta.
  assert (W : forall self, well_formed self ->
                well_formed (fold_left apply_book_op ops self)).
  { induction ops as [ | op ops IH]; intros self H; cbn [fold_left].
    - exact H.
    - apply IH. destruct op as [record | nm]; cbn [apply_book_op].
      + apply well_formed_add_record. exact H.
      + apply well_formed_delete. exact H. }
  pose proof (W [] well_formed_empty) as H. split; [exact H | ].
  intros nm record F. destruct H as [_ Hn]. rewrite Forall_forall in Hn.
  apply dict_get_In in F. apply Hn in F. cbn in F. congruence.
Qed.

Lemma book_stays_well_formed_witness :
  Record_.name (Record_.init "Bob") = "Bob".
Proof.
  refine (proj2
    (book_stays_well_formed
       [Add_record (Record_.init "Alice"); Add_record (Record_.init "Bob");
        Delete "Alice"; Delete "Carol"]) "Bob" (Record_.init "Bob") _).
  reflexivity.
Defined.

End Entries.

(** ** The returned mapping *)

Section Mapping.

Import Date AddressBook.

Lemma visit_fill (today : date) (b b' : buckets) (record : Record_.t) :
  valid today = true ->
  visit today b record = Ok b' -> b' = fill today b record.
Proof.
  intros Hvt. unfold visit, fill, slot. cbv zeta.
  destruct (Record_.birthday record) as [birthday | ]; [ | discriminate].
  destruct (String.eqb_spec birthday "") as [-> | N].
  - rewrite strptime_empty. intros E. injection E as <-. reflexivity.
  - destruct (Strptime.strptime_dmY birthday) as [parsed | e]; cbn [bind];
      [ | discriminate].
    destruct (anchor today parsed) as [anchored | e] eqn:A; cbn [bind];
      [ | discriminate].
    destruct (anchor_inv _ _ _ Hvt A) as (Hva & _).
    destruct (Z.ltb_spec (sub_days anchored today) 7) as [L | G].
    + rewrite place_in_window by assumption.
      intros E. injection E as <-. reflexivity.
    + rewrite place_outside by assumption.
      intros E. injection E as <-. reflexivity.
Qed.

Lemma loop_fill (today : date) (records : list Record_.t) :
  valid today = true ->
  forall b b', loop today records b = Ok b' ->
               b' = fold_left (fill today) records b.
Proof.
  intros Hvt. induction records as [ | record rest IH]; cbn [loop fold_left];
    intros b b' E.
  - injection E as <-. reflexivity.
  - destruct (visit today b record) as [b1 | e] eqn:V; cbn [bind] in E;
      [ | discriminate].
    apply (visit_fill _ _ _ _ Hvt) in V. subst b1. apply IH. exact E.
Qed.

Lemma dict_get_append_to (w w' nm : string) (b : buckets) :
  dict_get w (append_to w' nm b)
  = if String.eqb w' w
    then Some (match dict_get w b with
               | Some names => names ++ [nm]
               | None => [nm]
               end)%list
    else dict_get w b.
Proof.
  induction b as [ | [k names] b IH]; cbn.
  - destruct (String.eqb_spec w' w); reflexivity.
  - destruct (String.eqb_spec k w') as [-> | N]; cbn.
    + destruct (String.eqb_spec w' w); reflexivity.
    + rewrite IH. destruct (String.eqb_spec w' w) as [-> | N'].
      * destruct (String.eqb_spec k w); [contradiction | reflexivity].
      * reflexivity.
Qed.

Lemma keys_append_to_eq (w nm : string) (b : buckets) :
  keys (append_to w nm b)
  = if existsb (String.eqb w) (keys b) then keys b else (keys b ++ [w])%list.
Proof.
  unfold keys. induction b as [ | [k names] b IH]; cbn.
  - reflexivity.
  - rewrite (String.eqb_sym w k).
    destruct (String.eqb_spec k w) as [-> | N]; cbn.
    + reflexivity.
    + rewrite IH. destruct (existsb (String.eqb w) (map fst b)); reflexivity.
Qed.

Lemma names_for_snoc (today : date) (w : string) (l : list Record_.t)
    (r : Record_.t) :
  names_for today w (l ++ [r])
  = (names_for today w l
     ++ (if has_slot today w r then [Record_.name r] else []))%list.
Proof.
  unfold names_for. rewrite filter_app, map_app. cbn.
  destruct (has_slot today w r); reflexivity.
Qed.

Lemma slots_app (today : date) (l l' : list Record_.t) :
  slots today (l ++ l') = (slots today l ++ slots today l')%list.
Proof.
  induction l as [ | r l IH]; cbn; [reflexivity | ].
  destruct (slot today r); cbn; rewrite IH; reflexivity.
Qed.

Lemma fold_fill_get (today : date) (w : string) (records : list Record_.t) :
  dict_get w (fold_left (fill today) records [])
  = bucket (names_for today w records).
Proof.
  induction records as [ | r l IH] using rev_ind.
  - reflexivity.
  - rewrite fold_left_app, names_for_snoc. cbn [fold_left].
    unfold fill at 1. unfold has_slot.
    destruct (slot today r) as [w' | ].
    + rewrite dict_get_append_to, IH.
      destruct (String.eqb_spec w' w) as [-> | N].
      * destruct (names_for today w l); reflexivity.
      * rewrite app_nil_r. reflexivity.
    + rewrite app_nil_r. exact IH.
Qed.

Lemma fold_fill_keys (today : date) (records : list Record_.t) :
  keys (fold_left (fill today) records [])
  = first_seen (slots today records).
Proof.
  unfold first_seen.
  induction records as [ | r l IH] using rev_ind.
  - reflexivity.
  - rewrite fold_left_app, slots_app. cbn [fold_left slots].
    unfold fill at 1.
    destruct (slot today r) as [w | ].
    + rewrite keys_append_to_eq, fold_left_app, IH. reflexivity.
    + rewrite app_nil_r. exact IH.
Qed.

(** X9.  When the scheduler returns, the bucket of a weekday lists exactly
    the names of the records whose next birthday is due on it, in the
    order of the book, each as often as the book has such records; a
    weekday on which nothing is due is not a key. *)
Theorem buckets_list_due_records
    (now : date) (self : t) (birthdays : buckets) :
  get_birthdays_per_week now self = Ok birthdays ->
  exists today,
    next_monday now = Ok today
    /\ forall w,
         dict_get w birthdays = bucket (names_for today w (values self)).
Proof.
  unfold get_birthdays_per_week. intros E.
  destruct (next_monday now) as [today | e] eqn:M; cbn [bind] in E;
    [ | discriminate].
  exists today. split; [reflexivity | ]. intros w.
  destruct (next_monday_inv _ _ M) as (Hvt & _).
  rewrite (loop_fill _ _ Hvt _ _ E). apply fold_fill_get.
Qed.

Lemma buckets_list_due_records_witness :
  exists today,
    next_monday (mkdate 2025 11 4) = Ok today
    /\ forall w,
         dict_get w [("Wednesday", ["Alice"]); ("Monday", ["Bob"; "Carol"])]
         = bucket
             (names_for today w
                (values
                   [("Alice", Record_.mk "Alice" [] (Some "12.11.1990"));
                    ("Bob", Record_.mk "Bob" [] (Some "15.11.2000"));
                    ("Carol", Record_.mk "Carol" [] (Some "10.11.1985"));
                    ("Dan", Record_.mk "Dan" [] (Some "01.06.1970"))])).
Proof.
  refine (buckets_list_due_records (mkdate 2025 11 4) _ _ _).
  vm_compute. reflexivity.
Defined.

(** X10.  The keys of the returned mapping are the weekdays on which
    something is due, in the order in which the book first meets them. *)
Theorem keys_in_order_of_first_use
    (now : date) (self : t) (birthdays : buckets) :
  get_birthdays_per_week now self = Ok birthdays ->
  exists today,
    next_monday now = Ok today
    /\ keys birthdays = first_seen (slots today (values self)).
Proof.
  unfold get_birthdays_per_week. intros E.
  destruct (next_monday now) as [today | e] eqn:M; cbn [bind] in E;
    [ | discriminate].
  exists today. split; [reflexivity | ].
  destruct (next_monday_inv _ _ M) as (Hvt & _).
  rewrite (loop_fill _ _ Hvt _ _ E). apply fold_fill_keys.
Qed.

Lemma keys_in_order_of_first_use_witness :
  exists today,
    next_monday (mkdate 2025 11 4) = Ok today
    /\ keys [("Wednesday", ["Alice"]); ("Monday", ["Bob"; "Carol"])]
       = first_seen
           (slots today
              (values
                 [("Alice", Record_.mk "Alice" [] (Some "12.11.1990"));
                  ("Bob", Record_.mk "Bob" [] (Some "15.11.2000"));
                  ("Carol", Record_.mk "Carol" [] (Some "10.11.1985"))])).
Proof.
  refine (keys_in_order_of_first_use (mkdate 2025 11 4) _ _ _).
  vm_compute. reflexivity.
Defined.

Lemma celebrated_working_day (d : date) :
  In (celebrated (strftime_A d)) working_days.
Proof.
  destruct (strftime_A_weekday d)
    as [[_ E] | [[_ E] | [[_ E] | [[_ E] | [[_ E] | [[_ E] | [_ E]]]]]]];
    rewrite E; cbn; tauto.
Qed.

Lemma slot_working_day (today : date) (record : Record_.t) (w : string) :
  slot today record = Some w -> In w working_days.
Proof.
  unfold slot.
  destruct (Record_.birthday record) as [birthday | ]; [ | discriminate].
  destruct (Strptime.strptime_dmY birthday) as [parsed | e]; [ | discriminate].
  destruct (anchor today parsed) as [anchored | e]; [ | discriminate].
  destruct (sub_days anchored today <? 7); [ | discriminate].
  intros E. injection E as <-. apply celebrated_working_day.
Qed.

Lemma fold_fill_keys_working (today : date) (records : list Record_.t) :
  forall b,
    NoDup (keys b) -> incl (keys b) working_days ->
    NoDup (keys (fold_left (fill today) records b))
    /\ incl (keys (fold_left (fill today) records b)) working_days.
Proof.
  induction records as [ | r rest IH]; cbn [fold_left]; intros b Hn Hi.
  - tauto.
  - apply IH; unfold fill; destruct (slot today r) as [w | ] eqn:S;
      try assumption.
    + apply NoDup_keys_append_to. exact Hn.
    + intros k Hk. apply keys_append_to in Hk. destruct Hk as [-> | Hk].
      * eapply slot_working_day. exact S.
      * apply Hi. exact Hk.
Qed.

(** X11.  The returned mapping has at most five keys, each one of Monday
    to Friday, and none twice. *)
Theorem at_most_five_working_days
    (now : date) (self : t) (birthdays : buckets) :
  get_birthdays_per_week now self = Ok birthdays ->
  incl (keys birthdays) working_days
  /\ NoDup (keys birthdays)
  /\ (List.length birthdays <= 5)%nat.
Proof.
  unfold get_birthdays_per_week. intros E.
  destruct (next_monday now) as [today | e] eqn:M; cbn [bind] in E;
    [ | discriminate].
  destruct (next_monday_inv _ _ M) as (Hvt & _).
  rewrite (loop_fill _ _ Hvt _ _ E).
  destruct (fold_fill_keys_working today (values self) [])
    as [Hn Hi]; [constructor | intros k [] | ].
  split; [exact Hi | ]. split; [exact Hn | ].
  pose proof (NoDup_incl_length Hn Hi) as L.
  unfold keys in L. rewrite length_map in L. exact L.
Qed.

Lemma at_most_five_working_days_witness :
  (List.length [("Wednesday", ["Alice"]); ("Monday", ["Bob"])] <= 5)%nat.
Proof.
  refine (proj2 (proj2
    (at_most_five_working_days (mkdate 2025 11 4)
       [("Alice", Record_.mk "Alice" [] (Some "12.11.1990"));
        ("Bob", Record_.mk "Bob" [] (Some "15.11.2000"))]
       [("Wednesday", ["Alice"]); ("Monday", ["Bob"])] _))).
  vm_compute. reflexivity.
Defined.

End Mapping.

(** ** When the scheduler raises *)

Section Raising.

Import Date AddressBook.

Lemma loop_raises (today : date) (records : list Record_.t) :
  (exists record,
     In record records /\ forall b, exists e, visit today b record = Err e) ->
  forall b, exists e, loop today records b = Err e.
Proof.
  induction records as [ | r rest IH]; intros (record & Hin & Hr) b.
  - contradiction.
  - cbn [loop]. destruct (visit today b r) as [b1 | e] eqn:V; cbn [bind].
    + destruct Hin as [-> | Hin].
      * destruct (Hr b) as [e E]. congruence.
      * apply IH. exists record. tauto.
    + exists e. reflexivity.
Qed.

(** X12.  A book that holds any record without a birthday makes the
    scheduler raise, on every day and wherever the record stands in the
    book. *)
Theorem raises_on_any_record_without_birthday
    (now : date) (self : t) (record : Record_.t) :
  In record (values self) ->
  Record_.birthday record = None ->
  exists e, get_birthdays_per_week now self = Err e.
Proof.
  intros Hin Hn. unfold get_birthdays_per_week.
  destruct (next_monday now) as [today | e]; cbn [bind].
  - apply loop_raises. exists record. split; [exact Hin | ].
    intros b. eexists. apply visit_no_birthday. exact Hn.
  - exists e. reflexivity.
Qed.

Lemma raises_on_any_record_without_birthday_witness :
  exists e,
    get_birthdays_per_week (mkdate 2025 11 4)
      [("Alice", Record_.mk "Alice" [] (Some "12.11.1990"));
       ("Bob", Record_.mk "Bob" ["0123456789"] None)]
    = Err e.
Proof.
  refine (raises_on_any_record_without_birthday (mkdate 2025 11 4) _
            (Record_.mk "Bob" ["0123456789"] None) _ _).
  - right. left. reflexivity.
  - reflexivity.
Defined.

Lemma days_in_month_leap_day (y : Z) :
  is_leap y = false -> days_in_month y 2 = 28.
Proof. unfold days_in_month. intros ->. reflexivity. Qed.

(** X13.  When the window starts in a year that is not a leap year, a book
    that holds any record born on 29 February makes the scheduler
    raise. *)
Theorem raises_on_leap_day_in_common_year
    (now today : date) (self : t) (record : Record_.t) :
  next_monday now = Ok today ->
  is_leap (year today) = false ->
  In record (values self) ->
  leap_day_birthday record ->
  exists e, get_birthdays_per_week now self = Err e.
Proof.
  intros M L Hin (birthday & d & Hb & Hp & Hm & Hd).
  unfold get_birthdays_per_week. rewrite M. cbn [bind].
  apply loop_raises. exists record. split; [exact Hin | ].
  intros b. unfold visit. cbv zeta. rewrite Hb.
  destruct (String.eqb_spec birthday "") as [-> | N].
  - rewrite strptime_empty in Hp. discriminate.
  - rewrite Hp. cbn [bind]. unfold anchor, replace_year, new, check_date_fields.
    rewrite Hm, Hd, (days_in_month_leap_day _ L).
    destruct (negb ((MINYEAR <=? year today) && (year today <=? MAXYEAR)));
      cbn; eexists; reflexivity.
Qed.

Lemma raises_on_leap_day_in_common_year_witness :
  exists e,
    get_birthdays_per_week (mkdate 2025 11 4)
      [("Alice", Record_.mk "Alice" [] (Some "12.11.1990"));
       ("Eve", Record_.mk "Eve" [] (Some "29.02.2000"))]
    = Err e.
Proof.
  refine (raises_on_leap_day_in_common_year (mkdate 2025 11 4)
            (mkdate 2025 11 10) _ (Record_.mk "Eve" [] (Some "29.02.2000"))
            _ _ _ _).
  - vm_compute. reflexivity.
  - vm_compute. reflexivity.
  - right. left. reflexivity.
  - exists "29.02.2000", (mkdate 2000 2 29). vm_compute. tauto.
Defined.

Lemma days_in_month_any_year (y y' m dd : Z) :
  ~ (m = 2 /\ dd = 29) ->
  dd <= days_in_month y m -> dd <= days_in_month y' m.
Proof.
  unfold days_in_month. intros N.
  destruct (Z.eqb_spec m 2) as [-> | Hm]; cbn [andb]; [ | tauto].
  change (index DAYS_IN_MONTH 2) with 28.
  destruct (is_leap y), (is_leap y'); lia.
Qed.

Lemma replace_year_plain (d : date) (y : Z) :
  valid d = true -> ~ (month d = 2 /\ day d = 29) -> 1 <= y <= 9999 ->
  replace_year d y = Ok (mkdate y (month d) (day d)).
Proof.
  intros Hv N Hy. apply valid_iff in Hv. destruct Hv as (_ & Hm & Hd).
  assert (V : valid (mkdate y (month d) (day d)) = true).
  { apply valid_iff. cbn. split; [exact Hy | ]. split; [exact Hm | ].
    split; [lia | ]. eapply days_in_month_any_year; [exact N | apply Hd]. }
  apply (new_valid _ V).
Qed.

Lemma visit_plain (today : date) (b : buckets) (record : Record_.t) :
  valid today = true -> year today + 1 <= 9999 ->
  plain_birthday record ->
  exists b', visit today b record = Ok b'.
Proof.
  intros Hvt Hy (birthday & d & Hb & Hp & N).
  pose proof (strptime_valid _ _ Hp) as Hvd.
  pose proof Hvt as Hvt'. apply valid_iff in Hvt'.
  assert (A : exists anchored, anchor today d = Ok anchored).
  { unfold anchor. rewrite replace_year_plain by (try assumption; lia).
    cbn [bind]. destruct (lt _ today).
    - rewrite replace_year_plain; [eexists; reflexivity | | exact N | lia].
      apply valid_iff. cbn. apply valid_iff in Hvd.
      destruct Hvd as (_ & Hm & Hd). split; [lia | ]. split; [exact Hm | ].
      split; [lia | ]. eapply days_in_month_any_year; [exact N | apply Hd].
    - eexists; reflexivity. }
  destruct A as [anchored A].
  rewrite (visit_anchored _ _ _ _ _ _ Hb Hp A).
  destruct (anchor_inv _ _ _ Hvt A) as (Hva & _).
  destruct (Z.ltb_spec (sub_days anchored today) 7) as [L | G].
  - rewrite place_in_window by assumption. eexists; reflexivity.
  - rewrite place_outside by assumption. eexists; reflexivity.
Qed.

Lemma loop_plain (today : date) (records : list Record_.t) :
  valid today = true -> year today + 1 <= 9999 ->
  Forall plain_birthday records ->
  forall b, exists b', loop today records b = Ok b'.
Proof.
  intros Hvt Hy. induction records as [ | r rest IH]; intros H b;
    cbn [loop].
  - eexists; reflexivity.
  - inversion H as [ | ? ? Hr Hrest]; subst.
    destruct (visit_plain today b r Hvt Hy Hr) as [b1 ->]. cbn [bind].
    apply IH. exact Hrest.
Qed.

Lemma toordinal_year_bounds (d : date) :
  valid d = true ->
  days_before_year (year d) < toordinal d <= days_before_year (year d + 1).
Proof.
  intros Hv. apply valid_iff in Hv. destruct Hv as (_ & Hm & Hd).
  pose proof (yday_bounds _ _ _ Hm Hd).
  pose proof (days_before_year_succ (year d)).
  unfold toordinal, ymd2ord. lia.
Qed.

Lemma window_in_range (now : date) :
  valid now = true -> year now <= 9997 ->
  exists today,
    next_monday now = Ok today /\ valid today = true
    /\ year today + 1 <= 9999.
Proof.
  intros Hv Hy.
  pose proof (toordinal_year_bounds now Hv) as Bn.
  pose proof (days_before_year_mono (year now + 1) 9998 ltac:(lia)) as M1.
  change (days_before_year 9998) with 3651329 in M1.
  destruct (next_monday_total now Hv) as [today M].
  { unfold MAXORDINAL. lia. }
  destruct (next_monday_inv _ _ M) as (Hvt & _ & Ht).
  pose proof (toordinal_year_bounds today Hvt) as Bt.
  exists today. split; [exact M | ]. split; [exact Hvt | ].
  destruct (Z.le_gt_cases (year today) 9998) as [L | G]; [lia | ].
  pose proof (days_before_year_mono 9999 (year today) ltac:(lia)) as M2.
  change (days_before_year 9999) with 3651694 in M2. lia.
Qed.

(** X14.  Up to the year 9997 the scheduler raises nothing on a book in
    which every record has a birthday that is read as a date other than
    29 February. *)
Theorem returns_on_plain_birthdays (now : date) (self : t) :
  valid now = true -> year now <= 9997 ->
  Forall plain_birthday (values self) ->
  exists birthdays, get_birthdays_per_week now self = Ok birthdays.
Proof.
  intros Hv Hy Hp.
  destruct (window_in_range now Hv Hy) as (today & M & Hvt & Hyt).
  unfold get_birthdays_per_week. rewrite M. cbn [bind].
  apply loop_plain; assumption.
Qed.

Lemma returns_on_plain_birthdays_witness :
  exists birthdays,
    get_birthdays_per_week (mkdate 2025 11 4)
      [("Alice", Record_.mk "Alice" [] (Some "12.11.1990"))]
    = Ok birthdays.
Proof.
  refine (returns_on_plain_birthdays (mkdate 2025 11 4) _ _ _ _).
  - vm_compute. reflexivity.
  - vm_compute. intros H. discriminate H.
  - repeat constructor. exists "12.11.1990", (mkdate 1990 11 12).
    split; [reflexivity | ]. split; [vm_compute; reflexivity | ].
    cbn. intros [H _]. discriminate H.
Defined.

(** X15.  The window start exists for every day up to Monday 9999-12-27;
    on the four days after it the next Monday is beyond the last date and
    the scheduler raises [OverflowError]. *)
Theorem window_start_until_last_monday (now : date) :
  valid now = true ->
  (toordinal now <= toordinal (mkdate 9999 12 27) ->
   exists today, next_monday now = Ok today)
  /\ (toordinal (mkdate 9999 12 27) < toordinal now ->
      forall self,
        get_birthdays_per_week now self
        = Err (OverflowError "date value out of range")).
Proof.
  intros Hv. pose proof (toordinal_range now Hv) as R. unfold MAXORDINAL in R.
  change (toordinal (mkdate 9999 12 27)) with 3652055.
  unfold get_birthdays_per_week, next_monday, weekday. split.
  - intros H. rewrite add_days_ok; [eexists; reflexivity | ].
    unfold MAXORDINAL. Z.div_mod_to_equations. lia.
  - intros H self. unfold add_days. cbv zeta.
    destruct (Z.leb_spec
                (toordinal now + (7 - (toordinal now + 6) mod 7) mod 7)
                MAXORDINAL) as [L | G].
    + exfalso. unfold MAXORDINAL in L. Z.div_mod_to_equations. lia.
    + rewrite andb_false_r. reflexivity.
Qed.

Lemma window_start_until_last_monday_witness :
  get_birthdays_per_week (mkdate 9999 12 28) []
  = Err (OverflowError "date value out of range").
Proof.
  refine (proj2 (window_start_until_last_monday (mkdate 9999 12 28) _) _ []).
  - vm_compute. reflexivity.
  - vm_compute. reflexivity.
Defined.

End Raising.

(** ** Texts the [Birthday] field accepts *)

Section Birthday_texts.

Import Date Strptime.

Lemma is_ok_new (y m d : Z) : is_ok (new y m d) = valid (mkdate y m d).
Proof.
  unfold new, valid. cbn [year month day].
  destruct (check_date_fields y m d) as [[] | e]; reflexivity.
Qed.

Lemma match_dot_digit (k : Z) (rest : list ascii) :
  0 <= k <= 9 -> match_dot (digit_char k :: rest) = None.
Proof.
  intros H. unfold match_dot, is_dot. rewrite code_digit_char by exact H.
  second_branch. reflexivity.
Qed.

Lemma match_d_zero (rest : list ascii) :
  match_d (digit_char 0 :: digit_char 0 :: rest) = None.
Proof. reflexivity. Qed.

Lemma match_d_large (dd : Z) (rest : list ascii) :
  32 <= dd <= 99 ->
  match_d (digit_char (dd / 10) :: digit_char (dd mod 10) :: rest)
  = Some (dd / 10, digit_char (dd mod 10) :: rest).
Proof.
  intros H. unfold match_d, is_digit, between, digit_val.
  rewrite !code_digit_char by (Z.div_mod_to_equations; lia).
  second_branch. first_branch. f_equal. f_equal. lia.
Qed.

Lemma match_m_zero (rest : list ascii) :
  match_m (digit_char 0 :: digit_char 0 :: rest) = None.
Proof. reflexivity. Qed.

Lemma match_m_large (mm : Z) (rest : list ascii) :
  13 <= mm <= 99 ->
  match_m (digit_char (mm / 10) :: digit_char (mm mod 10) :: rest)
  = Some (mm / 10, digit_char (mm mod 10) :: rest).
Proof.
  intros H. unfold match_m, between, digit_val.
  rewrite !code_digit_char by (Z.div_mod_to_equations; lia).
  second_branch. first_branch. f_equal. f_equal. lia.
Qed.

(** X16.  A text DD.MM.YYYY of two, two and four digits is accepted by the
    [Birthday] field exactly when day, month and year are those of a date
    of the calendar: 31.02, 29.02 of a common year, day or month 00 and
    the year 0000 are refused. *)
Theorem birthday_accepts_calendar_dates (yy mm dd : Z) :
  0 <= dd <= 99 -> 0 <= mm <= 99 -> 0 <= yy <= 9999 ->
  Birthday.validate (format_dmY (mkdate yy mm dd)) = valid (mkdate yy mm dd).
Proof.
  intros Hd Hm Hy. unfold Birthday.validate.
  destruct (valid (mkdate yy mm dd)) eqn:V.
  - rewrite strptime_format by exact V. reflexivity.
  - unfold strptime_dmY, format_dmY. cbv zeta. cbn [year month day].
    rewrite list_ascii_of_string_of_list_ascii.
    assert (Cd : dd = 0 \/ 1 <= dd <= 31 \/ 32 <= dd <= 99) by lia.
    destruct Cd as [-> | [Cd | Cd]].
    + change (0 / 10) with 0. change (0 mod 10) with 0.
      rewrite match_d_zero. reflexivity.
    + rewrite match_d_digits by exact Cd. rewrite match_dot_dot.
      assert (Cm : mm = 0 \/ 1 <= mm <= 12 \/ 13 <= mm <= 99) by lia.
      destruct Cm as [-> | [Cm | Cm]].
      * change (0 / 10) with 0. change (0 mod 10) with 0.
        rewrite match_m_zero. reflexivity.
      * rewrite match_m_digits by exact Cm. rewrite match_dot_dot.
        rewrite match_Y_digits by exact Hy.
        rewrite is_ok_new. exact V.
      * rewrite match_m_large by exact Cm.
        rewrite match_dot_digit by (Z.div_mod_to_equations; lia).
        reflexivity.
    + rewrite match_d_large by exact Cd.
      rewrite match_dot_digit by (Z.div_mod_to_equations; lia).
      reflexivity.
Qed.

Lemma birthday_accepts_calendar_dates_witness :
  Birthday.validate (format_dmY (mkdate 2023 2 29)) = false.
Proof.
  refine (birthday_accepts_calendar_dates 2023 2 29 _ _ _); lia.
Defined.

Lemma match_d_single (dd : Z) (rest : list ascii) :
  1 <= dd <= 9 ->
  match_d (digit_char dd :: "."%char :: rest) = Some (dd, "."%char :: rest).
Proof.
  intros H. unfold match_d, is_digit, between, digit_val.
  rewrite !code_digit_char by lia. change (code ".") with 46.
  second_branch. first_branch. f_equal. f_equal. lia.
Qed.

Lemma match_m_single (mm : Z) (rest : list ascii) :
  1 <= mm <= 9 ->
  match_m (digit_char mm :: "."%char :: rest) = Some (mm, "."%char :: rest).
Proof.
  intros H. unfold match_m, between, digit_val.
  rewrite !code_digit_char by lia. change (code ".") with 46.
  second_branch. first_branch. f_equal. f_equal. lia.
Qed.

Lemma match_d_short (dd : Z) (rest : list ascii) :
  1 <= dd <= 31 ->
  match_d (digits_short dd ++ "."%char :: rest)
  = Some (dd, "."%char :: rest).
Proof.
  intros H. unfold digits_short. destruct (Z.ltb_spec dd 10); cbn [app].
  - apply match_d_single. lia.
  - apply match_d_digits. exact H.
Qed.

Lemma match_m_short (mm : Z) (rest : list ascii) :
  1 <= mm <= 12 ->
  match_m (digits_short mm ++ "."%char :: rest)
  = Some (mm, "."%char :: rest).
Proof.
  intros H. unfold digits_short. destruct (Z.ltb_spec mm 10); cbn [app].
  - apply match_m_single. lia.
  - apply match_m_digits. exact H.
Qed.

(** X17.  The [Birthday] field also accepts a valid date whose day and
    month are written without a leading zero, as in 1.2.2001, and reads it
    as the same date. *)
Theorem birthday_accepts_short_form (d : date) :
  valid d = true ->
  strptime_dmY (format_short d) = Ok d
  /\ Birthday.validate (format_short d) = true.
Proof.
  intros Hv. pose proof Hv as Hv'. apply valid_iff in Hv'.
  destruct Hv' as (Hy & Hm & Hd).
  pose proof (days_in_month_le_31 (year d) _ Hm).
  assert (E : strptime_dmY (format_short d) = Ok d).
  { unfold strptime_dmY, format_short. cbv zeta.
    rewrite list_ascii_of_string_of_list_ascii.
    rewrite match_d_short by lia. rewrite match_dot_dot.
    rewrite match_m_short by lia. rewrite match_dot_dot.
    rewrite match_Y_digits by lia.
    apply new_valid. exact Hv. }
  split; [exact E | ]. unfold Birthday.validate. rewrite E. reflexivity.
Qed.

Lemma birthday_accepts_short_form_witness :
  Birthday.validate "1.2.2001" = true.
Proof.
  refine (proj2 (birthday_accepts_short_form (mkdate 2001 2 1) _)).
  vm_compute. reflexivity.
Defined.

End Birthday_texts.

(** ** Texts the [Phone] field accepts *)

Section Phone_texts.

Import Record_.

Lemma length_list_ascii_of_string (s : string) :
  List.length (list_ascii_of_string s) = String.length s.
Proof. induction s as [ | c s IH]; cbn; [reflexivity | rewrite IH; reflexivity]. Qed.

Lemma forallb_is_digit (l : list ascii) :
  forallb Strptime.is_digit l = true
  <-> Forall (fun c => 48 <= Strptime.code c <= 57) l.
Proof.
  rewrite forallb_forall, Forall_forall.
  split; intros H c Hc; specialize (H c Hc);
    unfold Strptime.is_digit, Strptime.between in *.
  - apply andb_prop in H. destruct H as [H1 H2].
    apply Z.leb_le in H1. apply Z.leb_le in H2. lia.
  - apply andb_true_intro. split; apply Z.leb_le; lia.
Qed.

Lemma validate_ten_digits (s : string) :
  Phone.validate s = true <-> ten_digits s.
Proof.
  unfold Phone.validate, Phone.isdigit, ten_digits.
  rewrite andb_true_iff, Z.eqb_eq, <- forallb_is_digit.
  rewrite <- (length_list_ascii_of_string s).
  destruct (list_ascii_of_string s) as [ | c l] eqn:E.
  - cbn. split; intros [H1 H2]; [discriminate H2 | lia].
  - split; intros [H1 H2]; (split; [lia | exact H2]).
Qed.

Lemma add_phone_accepts_ten_digits (p : string) (self : t) :
  ten_digits p ->
  add_phone p self = (Ok tt, set_phones self (phones self ++ [p])%list).
Proof.
  intros H. apply add_phone_accepts. apply validate_ten_digits. exact H.
Qed.

(** X18.  [add_phone] puts a number of ten characters, each one of 0 to 9,
    at the end of the phones; any other ASCII text raises [ValueError]
    with the text [Invalid phone number format] and the record stays as it
    was. *)
Theorem add_phone_ten_digits (p : string) (self : t) :
  (ten_digits p ->
   add_phone p self = (Ok tt, set_phones self (phones self ++ [p])%list))
  /\ (ascii_text p -> ~ ten_digits p ->
      add_phone p self
      = (Err (ValueError "Invalid phone number format"), self)).
Proof.
  split.
  - apply add_phone_accepts_ten_digits.
  - intros _ H. apply add_phone_rejects. destruct (Phone.validate p) eqn:V;
      [ | reflexivity].
    exfalso. apply H. apply validate_ten_digits. exact V.
Qed.

Lemma add_phone_ten_digits_witness :
  add_phone "12345" (init "Alice")
  = (Err (ValueError "Invalid phone number format"), init "Alice").
Proof.
  refine (proj2 (add_phone_ten_digits "12345" (init "Alice")) _ _).
  - repeat constructor.
  - intros [H _]. discriminate H.
Defined.

End Phone_texts.

(** ** Reading a command *)

Section Reading.














End Reading.

(** ** Runs of [main] *)

Section Runs.

Import AddressBook.




Lemma book_sound_find (nm : string) (record : Record_.t) (self : t) :
  book_sound self -> find nm self = Some record ->
  record_sound record /\ Record_.name record = nm.
Proof.
  intros [[_ Hn] Hs] F. apply dict_get_In in F.
  rewrite Forall_forall in Hn, Hs. split.
  - apply (Hs _ F).
  - symmetry. apply (Hn _ F).
Qed.









Lemma dispatch_phone (now : Date.date) (self : t) (args : list string) :
  dispatch now self "phone" args
  = match args with
    | [] => Crash (IndexError "list index out of range")
    | nm :: _ =>
        match find nm self with
        | Some record =>
            match Record_.phones record with
            | [] => Crash (IndexError "list index out of range")
            | p :: _ => Continue [p] self
            end
        | None => Continue ["No such contact found."] self
        end
    end.
Proof. reflexivity. Qed.

(** X22.  On the book of a run, the command [phone] with a name never
    ends the program: it prints the first phone of the contact, or that
    there is no such contact. *)
Theorem phone_prints_first_phone
    (now : Date.date) (self : t) (nm : string) (more : list string) :
  book_sound self ->
  (forall record,
     find nm self = Some record ->
     exists p others,
       Record_.phones record = p :: others
       /\ dispatch now self "phone" (nm :: more) = Continue [p] self)
  /\ (find nm self = None ->
      dispatch now self "phone" (nm :: more)
      = Continue ["No such contact found."] self).
Proof.
  intros Hs. rewrite dispatch_phone. split.
  - intros record F. rewrite F.
    destruct (book_sound_find _ _ _ Hs F) as [(Hne & _) _].
    destruct (Record_.phones record) as [ | p others]; [contradiction | ].
    exists p, others. split; reflexivity.
  - intros ->. reflexivity.
Qed.

Lemma phone_prints_first_phone_witness :
  dispatch (Date.mkdate 2025 11 4)
    [("Alice", Record_.mk "Alice" ["1234567890"] None)] "phone" ["Bob"]
  = Continue ["No such contact found."]
      [("Alice", Record_.mk "Alice" ["1234567890"] None)].
Proof.
  refine (proj2 (phone_prints_first_phone (Date.mkdate 2025 11 4)
    [("Alice", Record_.mk "Alice" ["1234567890"] None)] "Bob" [] _) _).
  - split; [split | ].
    + repeat constructor. intros [].
    + repeat constructor.
    + repeat constructor; cbn; try discriminate.
  - reflexivity.
Defined.

Lemma dispatch_change (now : Date.date) (self : t) (nm phone : string) :
  dispatch now self "change" [nm; phone]
  = match find nm self with
    | Some record =>
        match Record_.add_phone phone record with
        | (Ok _, record') =>
            Continue ["Phone number updated for " ++ nm]
              (dict_set nm record' self)
        | (Err (ValueError msg), _) => Continue [msg] self
        | (Err e, _) => Crash (Raised e)
        end
    | None => Continue ["No such contact found."] self
    end.
Proof. reflexivity. Qed.

(** X23.  The command [change] does not replace a phone: it adds the new
    number after the ones the contact has, so the command [phone] prints
    the same number after it as before. *)
Theorem change_adds_a_phone
    (now : Date.date) (self : t) (nm phone : string) (record : Record_.t) :
  book_sound self ->
  find nm self = Some record ->
  ten_digits phone ->
  exists self' first,
    dispatch now self "change" [nm; phone]
    = Continue ["Phone number updated for " ++ nm] self'
    /\ find nm self'
       = Some (Record_.set_phones record (Record_.phones record ++ [phone])%list)
    /\ dispatch now self "phone" [nm] = Continue [first] self
    /\ dispatch now self' "phone" [nm] = Continue [first] self'.
Proof.
  intros Hs F Hp.
  destruct (book_sound_find _ _ _ Hs F) as [(Hne & _) _].
  destruct (Record_.phones record) as [ | first others] eqn:Ph;
    [contradiction | ].
  exists (dict_set nm
            (Record_.set_phones record (Record_.phones record ++ [phone])%list)
            self), first.
  rewrite dispatch_change, !dispatch_phone, F.
  rewrite (add_phone_accepts_ten_digits phone record Hp).
  unfold find in *. rewrite dict_get_set_same. cbn. rewrite Ph.
  repeat split; reflexivity.
Qed.

Lemma change_adds_a_phone_witness :
  exists self' first,
    dispatch (Date.mkdate 2025 11 4)
      [("Alice", Record_.mk "Alice" ["1234567890"] None)]
      "change" ["Alice"; "1111111111"]
    = Continue ["Phone number updated for " ++ "Alice"] self'
    /\ find "Alice" self'
       = Some (Record_.set_phones (Record_.mk "Alice" ["1234567890"] None)
                 (["1234567890"] ++ ["1111111111"])%list)
    /\ dispatch (Date.mkdate 2025 11 4)
         [("Alice", Record_.mk "Alice" ["1234567890"] None)] "phone" ["Alice"]
       = Continue [first] [("Alice", Record_.mk "Alice" ["1234567890"] None)]
    /\ dispatch (Date.mkdate 2025 11 4) self' "phone" ["Alice"]
       = Continue [first] self'.
Proof.
  refine (change_adds_a_phone (Date.mkdate 2025 11 4)
    [("Alice", Record_.mk "Alice" ["1234567890"] None)] "Alice" "1111111111"
    (Record_.mk "Alice" ["1234567890"] None) _ _ _).
  - split; [split | ].
    + repeat constructor. intros [].
    + repeat constructor.
    + repeat constructor; cbn; try discriminate.
  - reflexivity.
  - apply validate_ten_digits. reflexivity.
Defined.

Lemma dispatch_add_birthday (now : Date.date) (self : t) (nm b : string) :
  dispatch now self "add-birthday" [nm; b]
  = match command_add_birthday nm b self with
    | (Ok text, self') => Continue [text] self'
    | (Err e, _) => Crash (Raised e)
    end.
Proof. reflexivity. Qed.

Lemma dispatch_show_birthday (now : Date.date) (self : t) (nm : string) :
  dispatch now self "show-birthday" [nm]
  = Continue [show_birthday nm self] self.
Proof. reflexivity. Qed.

(** X24.  After the command [add-birthday] has set the birthday of a
    contact that had none, [show-birthday] prints that text, and a second
    [add-birthday] for the contact is answered with
    [Birthday already exists for this contact] and changes nothing. *)
Theorem show_birthday_after_add_birthday
    (now : Date.date) (self : t) (nm b b2 : string) (record : Record_.t) :
  find nm self = Some record ->
  Record_.birthday record = None ->
  Birthday.validate b = true ->
  exists self',
    dispatch now self "add-birthday" [nm; b]
    = Continue ["Birthday added for " ++ nm] self'
    /\ dispatch now self' "show-birthday" [nm]
       = Continue [nm ++ "'s birthday: " ++ b] self'
    /\ dispatch now self' "add-birthday" [nm; b2]
       = Continue ["Birthday already exists for this contact"] self'.
Proof.
  intros F Hn Hv.
  exists (dict_set nm (Record_.set_birthday record (Some b)) self).
  rewrite !dispatch_add_birthday, dispatch_show_birthday.
  unfold command_add_birthday, show_birthday. rewrite F.
  unfold Record_.add_birthday, Birthday.new. rewrite Hn, Hv. cbn.
  unfold find. rewrite dict_get_set_same. cbn. repeat split; reflexivity.
Qed.

Lemma show_birthday_after_add_birthday_witness :
  exists self',
    dispatch (Date.mkdate 2025 11 4)
      [("Alice", Record_.mk "Alice" ["1234567890"] None)]
      "add-birthday" ["Alice"; "12.11.1990"]
    = Continue ["Birthday added for " ++ "Alice"] self'
    /\ dispatch (Date.mkdate 2025 11 4) self' "show-birthday" ["Alice"]
       = Continue ["Alice" ++ "'s birthday: " ++ "12.11.1990"] self'
    /\ dispatch (Date.mkdate 2025 11 4) self' "add-birthday"
         ["Alice"; "01.01.2001"]
       = Continue ["Birthday already exists for this contact"] self'.
Proof.
  refine (show_birthday_after_add_birthday (Date.mkdate 2025 11 4)
    [("Alice", Record_.mk "Alice" ["1234567890"] None)] "Alice" "12.11.1990"
    "01.01.2001" (Record_.mk "Alice" ["1234567890"] None) _ _ _).
  - reflexivity.
  - reflexivity.
  - vm_compute. reflexivity.
Defined.

Lemma loop_first_without_birthday
    (today : Date.date) (before after : list Record_.t)
    (record : Record_.t) :
  Date.valid today = true -> Date.year today + 1 <= 9999 ->
  Forall plain_birthday before ->
  Record_.birthday record = None ->
  forall b,
    loop today (before ++ record :: after) b
    = Err (AttributeError "'NoneType' object has no attribute 'value'").
Proof.
  intros Hvt Hy Hp Hn.
  induction before as [ | r before IH]; intros b; cbn [app loop].
  - rewrite visit_no_birthday by exact Hn. reflexivity.
  - inversion Hp as [ | ? ? Hr Hrest]; subst.
    destruct (visit_plain today b r Hvt Hy Hr) as [b1 ->]. cbn [bind].
    apply IH. exact Hrest.
Qed.

(** X25.  The command [birthdays] ends the program with [AttributeError]
    when a contact has no birthday and the birthdays of the contacts
    before it in the book are read as dates other than 29 February; so it
    does whenever the first contact has none. *)
Theorem birthdays_ends_the_program
    (now : Date.date) (self : t) (before after : list Record_.t)
    (record : Record_.t) (args : list string) :
  Date.valid now = true -> Date.year now <= 9997 ->
  values self = (before ++ record :: after)%list ->
  Forall plain_birthday before ->
  Record_.birthday record = None ->
  dispatch now self "birthdays" args
  = Crash (Raised
             (AttributeError "'NoneType' object has no attribute 'value'")).
Proof.
  intros Hv Hy E Hp Hn.
  destruct (window_in_range now Hv Hy) as (today & M & Hvt & Hyt).
  assert (S : show_birthdays now self
              = Err (AttributeError
                       "'NoneType' object has no attribute 'value'")).
  { unfold show_birthdays, get_birthdays_per_week. rewrite M. cbn [bind].
    rewrite E.
    rewrite (loop_first_without_birthday _ _ _ _ Hvt Hyt Hp Hn).
    reflexivity. }
  change (dispatch now self "birthdays" args)
    with (match show_birthdays now self with
          | Ok text => Continue [text] self
          | Err e => Crash (Raised e)
          end).
  rewrite S. reflexivity.
Qed.

Lemma birthdays_ends_the_program_witness :
  dispatch (Date.mkdate 2025 11 4)
    [("Alice", Record_.mk "Alice" ["1234567890"] (Some "12.11.1990"));
     ("Bob", Record_.mk "Bob" ["0123456789"] None)] "birthdays" []
  = Crash (Raised
             (AttributeError "'NoneType' object has no attribute 'value'")).
Proof.
  refine (birthdays_ends_the_program (Date.mkdate 2025 11 4) _
    [Record_.mk "Alice" ["1234567890"] (Some "12.11.1990")] []
    (Record_.mk "Bob" ["0123456789"] None) [] _ _ _ _ _).
  - vm_compute. reflexivity.
  - vm_compute. intros H. discriminate H.
  - reflexivity.
  - repeat constructor. exists "12.11.1990", (Date.mkdate 1990 11 12).
    split; [reflexivity | ]. split; [vm_compute; reflexivity | ].
    cbn. intros [H _]. discriminate H.
  - reflexivity.
Defined.

Lemma loop_first_leap_day
    (today : Date.date) (before after : list Record_.t)
    (record : Record_.t) :
  Date.valid today = true -> Date.year today + 1 <= 9999 ->
  Date.is_leap (Date.year today) = false ->
  Forall plain_birthday before ->
  leap_day_birthday record ->
  forall b,
    loop today (before ++ record :: after) b
    = Err (ValueError "day is out of range for month").
Proof.
  intros Hvt Hy L Hp (birthday & d & Hb & Hd & Hm & Hday).
  induction before as [ | r before IH]; intros b; cbn [app loop].
  - unfold visit. cbv zeta. rewrite Hb.
    destruct (String.eqb_spec birthday "") as [-> | N].
    + rewrite strptime_empty in Hd. discriminate.
    + rewrite Hd. cbn [bind].
      unfold anchor, Date.replace_year, Date.new, Date.check_date_fields.
      rewrite Hm, Hday, (days_in_month_leap_day _ L).
      apply valid_iff in Hvt. destruct Hvt as (Hyr & _).
      unfold Date.MINYEAR, Date.MAXYEAR.
      destruct (Z.leb_spec 1 (Date.year today)); [ | lia].
      destruct (Z.leb_spec (Date.year today) 9999); [ | lia].
      reflexivity.
  - inversion Hp as [ | ? ? Hr Hrest]; subst.
    destruct (visit_plain today b r Hvt Hy Hr) as [b1 ->]. cbn [bind].
    apply IH. exact Hrest.
Qed.

(** X26.  When the window starts in a year that is not a leap year and the
    first contact whose birthday cannot be placed was born on 29 February,
    the command [birthdays] prints the text of the [ValueError] instead of
    any birthday, and the loop goes on with the book unchanged. *)
Theorem birthdays_prints_the_error
    (now today : Date.date) (self : t) (before after : list Record_.t)
    (record : Record_.t) (args : list string) :
  next_monday now = Ok today ->
  Date.year today + 1 <= 9999 ->
  Date.is_leap (Date.year today) = false ->
  values self = (before ++ record :: after)%list ->
  Forall plain_birthday before ->
  leap_day_birthday record ->
  dispatch now self "birthdays" args
  = Continue ["day is out of range for month"] self.
Proof.
  intros M Hy L E Hp Hl.
  destruct (next_monday_inv _ _ M) as (Hvt & _).
  assert (S : show_birthdays now self = Ok "day is out of range for month").
  { unfold show_birthdays, get_birthdays_per_week. rewrite M. cbn [bind].
    rewrite E.
    rewrite (loop_first_leap_day _ _ _ _ Hvt Hy L Hp Hl).
    reflexivity. }
  change (dispatch now self "birthdays" args)
    with (match show_birthdays now self with
          | Ok text => Continue [text] self
          | Err e => Crash (Raised e)
          end).
  rewrite S. reflexivity.
Qed.

Lemma birthdays_prints_the_error_witness :
  dispatch (Date.mkdate 2025 11 4)
    [("Alice", Record_.mk "Alice" ["1234567890"] (Some "12.11.1990"));
     ("Eve", Record_.mk "Eve" ["0123456789"] (Some "29.02.2000"))]
    "birthdays" []
  = Continue ["day is out of range for month"]
      [("Alice", Record_.mk "Alice" ["1234567890"] (Some "12.11.1990"));
       ("Eve", Record_.mk "Eve" ["0123456789"] (Some "29.02.2000"))].
Proof.
  refine (birthdays_prints_the_error (Date.mkdate 2025 11 4)
    (Date.mkdate 2025 11 10) _
    [Record_.mk "Alice" ["1234567890"] (Some "12.11.1990")] []
    (Record_.mk "Eve" ["0123456789"] (Some "29.02.2000")) [] _ _ _ _ _ _).
  - vm_compute. reflexivity.
  - vm_compute. intros H. discriminate H.
  - vm_compute. reflexivity.
  - reflexivity.
  - repeat constructor. exists "12.11.1990", (Date.mkdate 1990 11 12).
    split; [reflexivity | ]. split; [vm_compute; reflexivity | ].
    cbn. intros [H _]. discriminate H.
  - exists "29.02.2000", (Date.mkdate 2000 2 29). vm_compute. tauto.
Defined.

End Runs.

(** * The claims on the returned mapping *)

Section Next_occurrence.

Import Date AddressBook.

Lemma same_day_other_year (a b : date) :
  valid a = true -> valid b = true ->
  month a = month b -> day a = day b -> year a < year b ->
  toordinal a + 365 <= toordinal b.
Proof.
  intros Ha Hb Em Ed Hy.
  pose proof (days_before_year_succ (year a)) as S.
  pose proof (days_before_year_mono (year a + 1) (year b) ltac:(lia)) as M.
  unfold toordinal, ymd2ord, days_before_month. rewrite <- Em, <- Ed.
  destruct (2 <? month a); cbn [andb];
    destruct (is_leap (year a)), (is_leap (year b)); lia.
Qed.

Lemma toordinal_le_lt_false (a b : date) :
  valid a = true -> valid b = true ->
  toordinal b <= toordinal a -> lt a b = false.
Proof.
  intros Ha Hb H. destruct (lt a b) eqn:L; [ | reflexivity].
  pose proof (toordinal_lt _ _ Ha Hb L). lia.
Qed.

Lemma toordinal_lt_lt (a b : date) :
  valid a = true -> valid b = true ->
  toordinal a < toordinal b -> lt a b = true.
Proof.
  intros Ha Hb H. destruct (lt a b) eqn:L; [reflexivity | ].
  pose proof (date_lt_false_ge _ _ Ha Hb L). lia.
Qed.

(** The date the scheduler anchors a birthday to is its next
    occurrence. *)
Lemma anchor_next_occurrence (today parsed anchored : date) :
  valid today = true ->
  anchor today parsed = Ok anchored ->
  next_occurrence today parsed anchored.
Proof.
  intros Hvt A.
  destruct (anchor_inv _ _ _ Hvt A) as (Hva & Hm & Hd & _ & Hle).
  split; [exact Hva | ]. split; [exact Hm | ]. split; [exact Hd | ].
  split; [exact Hle | ].
  intros d' Hv' Hm' Hd' Hle'.
  unfold anchor in A.
  destruct (replace_year parsed (year today)) as [this | e] eqn:R;
    cbn [bind] in A; [ | discriminate].
  destruct (replace_year_inv _ _ _ R) as [Ethis Hvthis].
  assert (Hy' : year today <= year d').
  { destruct (Z.le_gt_cases (year today) (year d')) as [L | G]; [exact L | ].
    assert (Lt : lt d' today = true) by (apply date_lt_iff; lia).
    pose proof (toordinal_lt _ _ Hv' Hvt Lt). lia. }
  destruct (lt this today) eqn:L.
  - destruct (replace_year_inv _ _ _ A) as [Eanch _].
    rewrite Ethis in Eanch. cbn [month day] in Eanch.
    assert (C : year d' = year today \/ year d' = year today + 1
                \/ year today + 1 < year d') by lia.
    destruct C as [C | [C | C]].
    + assert (E : d' = this).
      { rewrite Ethis. apply date_eq; cbn; congruence. }
      pose proof (toordinal_lt _ _ Hvthis Hvt L). rewrite E in Hle'. lia.
    + assert (E : d' = anchored).
      { rewrite Eanch. apply date_eq; cbn; congruence. }
      rewrite E. lia.
    + apply Z.lt_le_incl. apply toordinal_lt; try assumption.
      apply date_lt_iff. rewrite Eanch. cbn [year]. lia.
  - injection A as <-.
    assert (C : year d' = year today \/ year today < year d') by lia.
    destruct C as [C | C].
    + assert (E : d' = this).
      { rewrite Ethis. apply date_eq; cbn; congruence. }
      rewrite E. lia.
    + apply Z.lt_le_incl. apply toordinal_lt; try assumption.
      apply date_lt_iff. rewrite Ethis. cbn [year]. lia.
Qed.

Lemma next_occurrence_unique (today parsed d1 d2 : date) :
  next_occurrence today parsed d1 -> next_occurrence today parsed d2 ->
  d1 = d2.
Proof.
  intros (V1 & M1 & D1 & L1 & N1) (V2 & M2 & D2 & L2 & N2).
  apply toordinal_inj; try assumption.
  pose proof (N1 d2 V2 M2 D2 L2). pose proof (N2 d1 V1 M1 D1 L1). lia.
Qed.

(** A birthday that falls [k] days after the window start, for [k] below
    a year, has its next occurrence on that day. *)
Lemma next_occurrence_days_after (today parsed d dk : date) (k : Z) :
  next_occurrence today parsed d ->
  0 <= k < 365 ->
  add_days today k = Ok dk ->
  month dk = month parsed -> day dk = day parsed ->
  d = dk.
Proof.
  intros (V & M & D & L & N) Hk A Mk Dk.
  destruct (add_days_inv _ _ _ A) as [Vk Ok].
  pose proof (N dk Vk Mk Dk ltac:(lia)) as Hle.
  assert (C : year d < year dk \/ year d = year dk \/ year dk < year d) by lia.
  destruct C as [C | [C | C]].
  - pose proof (same_day_other_year d dk V Vk ltac:(congruence)
                  ltac:(congruence) C). lia.
  - apply date_eq; congruence.
  - pose proof (same_day_other_year dk d Vk V ltac:(congruence)
                  ltac:(congruence) C). lia.
Qed.

Lemma next_occurrence_on_start (today parsed d : date) :
  valid today = true ->
  next_occurrence today parsed d ->
  month parsed = month today -> day parsed = day today ->
  d = today.
Proof.
  intros Hvt (V & M & D & L & N) Em Ed.
  apply toordinal_inj; try assumption.
  pose proof (N today Hvt ltac:(congruence) ltac:(congruence) ltac:(lia)).
  lia.
Qed.

End Next_occurrence.

Section Returned_mapping.

Import Date AddressBook.

Lemma loop_ok_anchor (today : date) (records : list Record_.t) :
  forall b b' record birthday parsed,
    loop today records b = Ok b' ->
    In record records ->
    Record_.birthday record = Some birthday ->
    Strptime.strptime_dmY birthday = Ok parsed ->
    exists anchored, anchor today parsed = Ok anchored.
Proof.
  induction records as [ | r rest IH];
    intros b b' record birthday parsed E Hin Hb Hp.
  - contradiction.
  - cbn [loop] in E.
    destruct (visit today b r) as [b1 | e] eqn:V; cbn [bind] in E;
      [ | discriminate].
    destruct Hin as [-> | Hin]; [ | eapply IH; eassumption].
    unfold visit in V. cbv zeta in V. rewrite Hb in V.
    destruct (String.eqb_spec birthday "") as [-> | N].
    + rewrite strptime_empty in Hp. discriminate.
    + rewrite Hp in V. cbn [bind] in V.
      destruct (anchor today parsed) as [anchored | e];
        [eexists; reflexivity | discriminate].
Qed.

Lemma slot_of_anchor (today parsed anchored : date) (record : Record_.t)
    (birthday : string) :
  Record_.birthday record = Some birthday ->
  Strptime.strptime_dmY birthday = Ok parsed ->
  anchor today parsed = Ok anchored ->
  slot today record
  = if sub_days anchored today <? 7
    then Some (celebrated (strftime_A anchored))
    else None.
Proof. intros Hb Hp Ha. unfold slot. rewrite Hb, Hp, Ha. reflexivity. Qed.

Lemma names_of_fold (today : date) (nm : string) (l : list Record_.t) :
  In nm (names_of (fold_left (fill today) l []))
  <-> exists r, In r l /\ Record_.name r = nm /\ slot today r <> None.
Proof.
  induction l as [ | r l IH] using rev_ind.
  - cbn. split; [intros [] | intros (r & [] & _)].
  - rewrite fold_left_app. cbn [fold_left]. unfold fill at 1.
    destruct (slot today r) as [w | ] eqn:S.
    + split.
      * intros H.
        apply (Permutation_in _ (names_of_append_to w _ _)) in H.
        destruct H as [<- | H].
        -- exists r. split; [apply in_or_app; right; left; reflexivity | ].
           split; [reflexivity | congruence].
        -- apply IH in H. destruct H as (r' & Hin & Hn & Hs).
           exists r'. split; [apply in_or_app; left; exact Hin | tauto].
      * intros (r' & Hin & Hn & Hs).
        apply (Permutation_in _
                 (Permutation_sym (names_of_append_to w _ _))).
        apply in_app_or in Hin. destruct Hin as [Hin | [-> | []]].
        -- right. apply IH. exists r'. tauto.
        -- left. exact Hn.
    + rewrite IH. split; intros (r' & Hin & Hn & Hs).
      * exists r'. split; [apply in_or_app; left; exact Hin | tauto].
      * apply in_app_or in Hin. destruct Hin as [Hin | [-> | []]].
        -- exists r'. tauto.
        -- contradiction.
Qed.

Lemma listed_under_fold (today : date) (w nm : string) (l : list Record_.t) :
  listed_under w nm (fold_left (fill today) l [])
  <-> exists r, In r l /\ Record_.name r = nm /\ slot today r = Some w.
Proof.
  unfold listed_under. rewrite fold_fill_get. unfold names_for. split.
  - intros (names & E & Hin).
    assert (Hin' : In nm (map Record_.name (filter (has_slot today w) l))).
    { destruct (map Record_.name (filter (has_slot today w) l));
        [discriminate | ]. injection E as <-. exact Hin. }
    apply in_map_iff in Hin'. destruct Hin' as (r & Hn & Hf).
    apply filter_In in Hf. destruct Hf as [Hl Hs].
    exists r. split; [exact Hl | ]. split; [exact Hn | ].
    unfold has_slot in Hs. destruct (slot today r) as [w' | ];
      [ | discriminate].
    apply String.eqb_eq in Hs. congruence.
  - intros (r & Hl & Hn & Hs).
    assert (Hin : In nm (map Record_.name (filter (has_slot today w) l))).
    { apply in_map_iff. exists r. split; [exact Hn | ].
      apply filter_In. split; [exact Hl | ].
      unfold has_slot. rewrite Hs. apply String.eqb_refl. }
    destruct (map Record_.name (filter (has_slot today w) l)) as [ | a names];
      [contradiction | ].
    exists (a :: names). split; [reflexivity | exact Hin].
Qed.

Lemma NoDup_map_same {A B : Type} (f : A -> B) (l : list A) (a b : A) :
  NoDup (map f l) -> In a l -> In b l -> f a = f b -> a = b.
Proof.
  induction l as [ | c l IH]; cbn; intros H Ha Hb E.
  - contradiction.
  - inversion H as [ | ? ? Hnot Hrest]; subst.
    destruct Ha as [-> | Ha], Hb as [-> | Hb].
    + reflexivity.
    + exfalso. apply Hnot. rewrite E. apply in_map. exact Hb.
    + exfalso. apply Hnot. rewrite <- E. apply in_map. exact Ha.
    + apply IH; assumption.
Qed.

(** What the returned mapping says of one record of the book, in terms of
    the next occurrence of its birthday. *)
Lemma returned_mapping_of_record
    (now today : date) (self : t) (birthdays : buckets)
    (record : Record_.t) (birthday : string) (parsed : date) :
  next_monday now = Ok today ->
  get_birthdays_per_week now self = Ok birthdays ->
  In record (values self) ->
  Record_.birthday record = Some birthday ->
  Strptime.strptime_dmY birthday = Ok parsed ->
  exists d,
    next_occurrence today parsed d
    /\ (sub_days d today < 7 ->
        listed_under (celebrated (strftime_A d)) (Record_.name record)
          birthdays)
    /\ (well_formed self ->
        In (Record_.name record) (names_of birthdays) ->
        sub_days d today < 7).
Proof.
  intros M E Hin Hb Hp.
  unfold get_birthdays_per_week in E. rewrite M in E. cbn [bind] in E.
  destruct (next_monday_inv _ _ M) as (Hvt & _).
  destruct (loop_ok_anchor _ _ _ _ _ _ _ E Hin Hb Hp) as [d A].
  pose proof (slot_of_anchor _ _ _ _ _ Hb Hp A) as S.
  rewrite (loop_fill _ _ Hvt _ _ E).
  exists d. split; [apply anchor_next_occurrence; assumption | ]. split.
  - intros L. apply listed_under_fold. exists record.
    split; [exact Hin | ]. split; [reflexivity | ].
    rewrite S. destruct (Z.ltb_spec (sub_days d today) 7); [reflexivity | lia].
  - intros Hwf H. apply names_of_fold in H.
    destruct H as (r & Hr & Hn & Hs).
    assert (Er : r = record).
    { apply (NoDup_map_same Record_.name (values self));
        [apply well_formed_names; exact Hwf | assumption .. ]. }
    subst r. rewrite S in Hs.
    destruct (Z.ltb_spec (sub_days d today) 7); [assumption | congruence].
Qed.

Lemma listed_under_names_of (w nm : string) (b : buckets) :
  listed_under w nm b -> In nm (names_of b).
Proof.
  intros (names & E & Hin). apply In_names_of. exists w, names.
  split; [apply dict_get_In; exact E | exact Hin].
Qed.

End Returned_mapping.

Section Claims_on_the_mapping.

Import Date AddressBook.

(** C5.  On a book in which every record is stored under its own name, a
    contact whose birthday is set is listed in the returned mapping exactly
    when [delta_days], the days from the window start to the next
    occurrence of the birthday, satisfies [0 <= delta_days < 7]; it is then
    listed under the weekday of that occurrence after the weekend rule.  A
    birthday that falls [k] days after the window start has
    [delta_days = k]: on the window start itself the contact is listed
    under Monday, and ten days after it the contact is in no bucket. *)
Theorem C5_bucket_iff_in_window
    (now today : date) (self : t) (birthdays : buckets)
    (record : Record_.t) (birthday : string) (parsed : date) :
  next_monday now = Ok today ->
  get_birthdays_per_week now self = Ok birthdays ->
  well_formed self ->
  In record (values self) ->
  Record_.birthday record = Some birthday ->
  Strptime.strptime_dmY birthday = Ok parsed ->
  exists d,
    next_occurrence today parsed d
    /\ let delta_days := sub_days d today in
       0 <= delta_days
       /\ (In (Record_.name record) (names_of birthdays)
           <-> 0 <= delta_days < 7)
       /\ (0 <= delta_days < 7 ->
           listed_under (celebrated (strftime_A d)) (Record_.name record)
             birthdays)
       /\ (forall k dk,
             0 <= k < 365 -> add_days today k = Ok dk ->
             month dk = month parsed -> day dk = day parsed ->
             delta_days = k)
       /\ (month parsed = month today -> day parsed = day today ->
           delta_days = 0
           /\ listed_under "Monday" (Record_.name record) birthdays)
       /\ (forall d10,
             add_days today 10 = Ok d10 ->
             month d10 = month parsed -> day d10 = day parsed ->
             delta_days = 10
             /\ ~ In (Record_.name record) (names_of birthdays)).
Proof.
  intros M E Hwf Hin Hb Hp.
  destruct (next_monday_inv _ _ M) as (Hvt & Hwd & _).
  destruct (returned_mapping_of_record _ _ _ _ _ _ _ M E Hin Hb Hp)
    as (d & Hn & Hlisted & Honly).
  exists d. split; [exact Hn | ]. cbv zeta.
  assert (H0 : 0 <= sub_days d today).
  { destruct Hn as (_ & _ & _ & L & _). unfold sub_days. lia. }
  assert (Hk : forall k dk,
             0 <= k < 365 -> add_days today k = Ok dk ->
             month dk = month parsed -> day dk = day parsed ->
             sub_days d today = k).
  { intros k dk Hk A Mk Dk.
    rewrite (next_occurrence_days_after _ _ _ _ _ Hn Hk A Mk Dk).
    destruct (add_days_inv _ _ _ A) as [_ O]. unfold sub_days. lia. }
  split; [exact H0 | ]. split; [ | split; [ | split; [ | split]]].
  - split.
    + intros H. split; [exact H0 | apply Honly; assumption].
    + intros [_ H]. eapply listed_under_names_of. apply Hlisted. exact H.
  - intros [_ H]. apply Hlisted. exact H.
  - exact Hk.
  - intros Em Ed.
    pose proof (next_occurrence_on_start _ _ _ Hvt Hn Em Ed) as ->.
    assert (Z0 : sub_days today today = 0) by (unfold sub_days; lia).
    split; [exact Z0 | ].
    assert (Emon : celebrated (strftime_A today) = "Monday").
    { destruct (strftime_A_weekday today) as [[_ ->] | C];
        [reflexivity | exfalso; lia]. }
    rewrite <- Emon. apply Hlisted. lia.
  - intros d10 A Mk Dk.
    pose proof (Hk 10 d10 ltac:(lia) A Mk Dk) as E10.
    split; [exact E10 | ]. intros H. apply (Honly Hwf) in H. lia.
Qed.

Lemma C5_bucket_iff_in_window_witness :
  listed_under "Monday" "Carol"
    [("Wednesday", ["Alice"]); ("Monday", ["Carol"])]
  /\ ~ In "Dan" (names_of [("Wednesday", ["Alice"]); ("Monday", ["Carol"])]).
Proof.
  set (book :=
         [("Alice", Record_.mk "Alice" ["1234567890"] (Some "12.11.1990"));
          ("Carol", Record_.mk "Carol" ["0123456789"] (Some "10.11.1985"));
          ("Dan", Record_.mk "Dan" ["1112223334"] (Some "20.11.1970"))]).
  assert (Hwf : well_formed book).
  { split; [ | repeat constructor].
    repeat constructor; cbn; intuition discriminate. }
  split.
  - destruct (C5_bucket_iff_in_window (mkdate 2025 11 4) (mkdate 2025 11 10)
                book [("Wednesday", ["Alice"]); ("Monday", ["Carol"])]
                (Record_.mk "Carol" ["0123456789"] (Some "10.11.1985"))
                "10.11.1985" (mkdate 1985 11 10))
      as (d & _ & _ & _ & _ & _ & Hstart & _);
      [vm_compute; reflexivity | vm_compute; reflexivity | exact Hwf
      | right; left; reflexivity | reflexivity | vm_compute; reflexivity | ].
    exact (proj2 (Hstart eq_refl eq_refl)).
  - destruct (C5_bucket_iff_in_window (mkdate 2025 11 4) (mkdate 2025 11 10)
                book [("Wednesday", ["Alice"]); ("Monday", ["Carol"])]
                (Record_.mk "Dan" ["1112223334"] (Some "20.11.1970"))
                "20.11.1970" (mkdate 1970 11 20))
      as (d & _ & _ & _ & _ & _ & _ & Hten);
      [vm_compute; reflexivity | vm_compute; reflexivity | exact Hwf
      | right; right; left; reflexivity | reflexivity
      | vm_compute; reflexivity | ].
    refine (proj2 (Hten (mkdate 2025 11 20) _ eq_refl eq_refl)).
    vm_compute. reflexivity.
Defined.

(** C7.  No key of the returned mapping is Saturday or Sunday; every
    contact of the book whose next birthday lies in the window on a day
    whose weekday is Saturday or Sunday, that is five or six days after
    the window start, is listed in the returned mapping under Monday. *)
Theorem C7_no_weekend_bucket
    (now today : date) (self : t) (birthdays : buckets) :
  next_monday now = Ok today ->
  get_birthdays_per_week now self = Ok birthdays ->
  (~ In "Saturday" (keys birthdays) /\ ~ In "Sunday" (keys birthdays))
  /\ (forall record birthday parsed d,
        In record (values self) ->
        Record_.birthday record = Some birthday ->
        Strptime.strptime_dmY birthday = Ok parsed ->
        next_occurrence today parsed d ->
        sub_days d today < 7 ->
        strftime_A d = "Saturday" \/ strftime_A d = "Sunday" ->
        listed_under "Monday" (Record_.name record) birthdays)
  /\ (forall record birthday parsed k dk,
        In record (values self) ->
        Record_.birthday record = Some birthday ->
        Strptime.strptime_dmY birthday = Ok parsed ->
        k = 5 \/ k = 6 ->
        add_days today k = Ok dk ->
        month dk = month parsed -> day dk = day parsed ->
        (strftime_A dk = "Saturday" \/ strftime_A dk = "Sunday")
        /\ listed_under "Monday" (Record_.name record) birthdays).
Proof.
  intros M E.
  destruct (next_monday_inv _ _ M) as (Hvt & Hwd & _).
  assert (Hweekend : forall record birthday parsed d,
            In record (values self) ->
            Record_.birthday record = Some birthday ->
            Strptime.strptime_dmY birthday = Ok parsed ->
            next_occurrence today parsed d ->
            sub_days d today < 7 ->
            strftime_A d = "Saturday" \/ strftime_A d = "Sunday" ->
            listed_under "Monday" (Record_.name record) birthdays).
  { intros record birthday parsed d Hin Hb Hp Hn L Hw.
    destruct (returned_mapping_of_record _ _ _ _ _ _ _ M E Hin Hb Hp)
      as (d' & Hn' & Hlisted & _).
    pose proof (next_occurrence_unique _ _ _ _ Hn' Hn) as ->.
    assert (Emon : celebrated (strftime_A d) = "Monday")
      by (destruct Hw as [-> | ->]; reflexivity).
    rewrite <- Emon. apply Hlisted. exact L. }
  split; [ | split; [exact Hweekend | ]].
  - unfold get_birthdays_per_week in E. rewrite M in E. cbn [bind] in E.
    apply loop_no_weekend_keys in E; [ | constructor].
    rewrite Forall_forall in E.
    split; intros Hin; apply E in Hin; discriminate Hin.
  - intros record birthday parsed k dk Hin Hb Hp Hk A Mk Dk.
    destruct (add_days_inv _ _ _ A) as [Vk O].
    assert (Wk : weekday dk = k).
    { unfold weekday in *. rewrite O.
      destruct Hk as [Ek | Ek]; rewrite Ek; Z.div_mod_to_equations; lia. }
    assert (Hw : strftime_A dk = "Saturday" \/ strftime_A dk = "Sunday").
    { unfold strftime_A. rewrite Wk.
      destruct Hk as [-> | ->]; [left | right]; reflexivity. }
    split; [exact Hw | ].
    destruct (returned_mapping_of_record _ _ _ _ _ _ _ M E Hin Hb Hp)
      as (d & Hn & _).
    assert (Hk365 : 0 <= k < 365) by lia.
    pose proof (next_occurrence_days_after _ _ _ _ _ Hn Hk365 A Mk Dk) as Ed.
    subst d. apply (Hweekend record birthday parsed dk); try assumption.
    unfold sub_days. lia.
Qed.

Lemma C7_no_weekend_bucket_witness :
  listed_under "Monday" "Bob"
    [("Wednesday", ["Alice"]); ("Monday", ["Bob"])].
Proof.
  refine (proj2 (proj2 (proj2
    (C7_no_weekend_bucket (mkdate 2025 11 4) (mkdate 2025 11 10)
       [("Alice", Record_.mk "Alice" ["1234567890"] (Some "12.11.1990"));
        ("Bob", Record_.mk "Bob" ["0123456789"] (Some "15.11.2000"))]
       [("Wednesday", ["Alice"]); ("Monday", ["Bob"])] _ _))
    (Record_.mk "Bob" ["0123456789"] (Some "15.11.2000")) "15.11.2000"
    (mkdate 2000 11 15) 5 (mkdate 2025 11 15) _ _ _ _ _ _ _)).
  - vm_compute. reflexivity.
  - vm_compute. reflexivity.
  - right. left. reflexivity.
  - reflexivity.
  - vm_compute. reflexivity.
  - left. reflexivity.
  - vm_compute. reflexivity.
  - reflexivity.
  - reflexivity.
Defined.

End Claims_on_the_mapping.
